(** * Prometheus discovery endpoints over a Warp 10 backend

    A shallow embedding of [proto/prom/find.go]: the translation of
    Prometheus label matchers into Warp 10 selectors ([processMatchers]),
    the clamp of the [start] parameter ([applyTimeRangeLimits]) and the
    discovery handlers [FindLabelsValues], [FindLabels] and [FindClassnames].

    Three revisions of [find.go] are embedded, each in modules of its own:
    - [Handlers] and [Series]: the revision whose [FindClassnames] is an
      echo handler (proto/prom/find.go);
    - [Core] and [CoreHandlers]: the revision that adds
      [DEFAULT_METRIC_SELECTOR], [applyTimeRangeLimits],
      [FindClassnamesHandler], [handleSeriesPost] and a [FindClassnames]
      over primitive parameters;
    - [Inline]: the oldest revision, where each handler translates the
      matchers in place.
    [processMatchers] is the same text in the first two and is embedded
    once. *)

From Stdlib Require Import ZArith String Ascii List Lia.
From stdpp Require Import base option list gmap strings.

Local Open Scope string_scope.
Local Open Scope Z_scope.
Local Open Scope list_scope.

(** ** Matchers (github.com/prometheus/prometheus/pkg/labels) *)

(** [labels.MatchType] and its [String] method. *)
Inductive MatchType : Type :=
  | MatchEqual
  | MatchNotEqual
  | MatchRegexp
  | MatchNotRegexp.

Definition MatchType_String (t : MatchType) : string :=
  match t with
  | MatchEqual => "="
  | MatchNotEqual => "!="
  | MatchRegexp => "=~"
  | MatchNotRegexp => "!~"
  end.

(** [labels.Matcher]; the field [Type] is spelled [Type_] here. *)
Record Matcher : Type := mkMatcher {
  Type_ : MatchType;
  Name : string;
  Value : string
}.

(** ** processMatchers *)

(** The body of the [switch matcher.Type.String()] statement: the value
    stored for an ordinary label. [fmt.Sprintf("~(?!%s).*", v)] is the
    concatenation written out. *)
Definition labelsValue (matcher : Matcher) : string :=
  let v := Value matcher in
  let s := MatchType_String (Type_ matcher) in
  if String.eqb s "=~" then "~" +:+ v
  else if String.eqb s "!=" || String.eqb s "!~" then "~(?!" +:+ v +:+ ").*"
  else v.

(** One iteration of the [for _, matcher := range matchers] loop over the
    pair of local variables [(className, labels)]. *)
Definition processMatchers_step
    (acc : string * gmap string string) (matcher : Matcher)
  : string * gmap string string :=
  if String.eqb (Name matcher) "__name__" then (Value matcher, acc.2)
  else (acc.1, <[Name matcher := labelsValue matcher]> acc.2).

Definition processMatchers (matchers : list Matcher)
  : string * gmap string string :=
  foldl processMatchers_step ("", ∅) matchers.

(** The constraint encoding in the words of the specification, by operator. *)
Definition constraintString (t : MatchType) (value : string) : string :=
  match t with
  | MatchEqual => value
  | MatchRegexp => "~" +:+ value
  | MatchNotEqual => "~(?!" +:+ value +:+ ").*"
  | MatchNotRegexp => "~(?!" +:+ value +:+ ").*"
  end.

(** The value of the last matcher on the reserved label, if any. *)
Fixpoint lastNameValue (matchers : list Matcher) : option string :=
  match matchers with
  | [] => None
  | m :: rest =>
      match lastNameValue rest with
      | Some v => Some v
      | None => if String.eqb (Name m) "__name__" then Some (Value m) else None
      end
  end.

(** ** The collaborators of the handlers *)

(** [core.GeoTimeSeries], with the three fields the handlers read; the
    field [Class] is spelled [Class_] here. *)
Record GeoTimeSeries : Type := mkGTS {
  Class_ : string;
  Labels : gmap string string;
  Attrs : gmap string string
}.

(** What [warpServer.FindGTS] returns: the series of [gtss.GTS], or an error. *)
Inductive FindResult : Type :=
  | FindOK (gts : list GeoTimeSeries)
  | FindErr (err : string).

(** One invocation of the backend query interface. [P] is the type of the
    third argument of [FindGTS]: a [time.Time] in one revision, a
    [core.FindParameters] in the other. *)
Record Call (P : Type) : Type := mkCall {
  call_token : string;
  call_selector : string;
  call_params : P
}.
Arguments mkCall {P} _ _ _.
Arguments call_token {P} _.
Arguments call_selector {P} _.
Arguments call_params {P} _.

(** The Warp 10 client ([core.WarpServer]). Its answer may depend on the
    queries that were sent before. *)
Class Warp10 (P : Type) : Type := {
  FindGTS : list (Call P) → Call P → FindResult
}.

(** The code of the repository that the handlers call and that lives in
    other files: the PromQL selector parser, which returns its matchers
    together with its error as Go does, and the selector builder followed by
    its [String] method. *)
Class Collaborators : Type := {
  ParseMetricSelector : string → list Matcher * option string;
  buildWarp10Selector : string → gmap string string → string
}.

(** The functions of the Go library whose results the handlers branch on.
    [mapKeys] is the order in which a [range] statement walks the keys of a
    map, which Go leaves unspecified. *)
Class GoLib : Type := {
  TrimSpace : string → string;
  ParseInt : string → Z * option string;
  ParseDuration : string → option Z;
  mapKeys : gset string → list string;
  mapKeys_perm : ∀ s, mapKeys s ≡ₚ elements s
}.

(** Handlers run in a state monad over the log of backend queries, oldest
    first. Writes to the logger are not part of the model. *)
Definition M (C A : Type) : Type := list C → A * list C.

#[export] Instance M_ret (C : Type) : MRet (M C) :=
  λ A (a : A) calls, (a, calls).

#[export] Instance M_bind (C : Type) : MBind (M C) :=
  λ A B (k : A → M C B) (m : M C A) calls,
    let '(a, calls') := m calls in k a calls'.

(** [warpServer.FindGTS(token, selector, params)]: the query is answered
    and recorded. *)
Definition queryGTS {P : Type} `{!Warp10 P}
    (token selector : string) (params : P) : M (Call P) FindResult :=
  λ calls,
    let c := mkCall token selector params in
    (FindGTS calls c, calls ++ [c]).

(** Modelled from the spec: [unique], the helper of the package that is
    defined outside [find.go]; "results are deduplicated by value before
    being returned". The first occurrence of each value is kept. *)
Definition unique (stringSlice : list string) : list string :=
  foldl (λ list entry, if bool_decide (entry ∈ list) then list else list ++ [entry])
        [] stringSlice.

(** [time.Time] as nanoseconds since the Unix epoch (wall clock only) and
    [time.Duration] as a signed 64-bit count of nanoseconds. *)
Definition Time : Type := Z.
Definition Duration : Type := Z.

Definition Hour : Duration := 3600 * 1000000000.

(** [time.Time{}], January 1 of year 1. *)
Definition zeroTime : Time := -62135596800 * 1000000000.


(** Two's complement wrap-around of 64-bit signed arithmetic. *)
Definition wrap64 (z : Z) : Z := (z + 2 ^ 63) mod 2 ^ 64 - 2 ^ 63.

(** The seconds from January 1 of year 1 to the Unix epoch. *)
Definition unixToInternal : Z := 62135596800.

(** [time.Unix(sec, 0)]: the instant is stored as [sec + unixToInternal]
    seconds in an int64, which wraps for the largest values of [sec]. *)
Definition time_Unix (sec : Z) : Time :=
  (wrap64 (sec + unixToInternal) - unixToInternal) * 1000000000.

(** Unary minus on a [Duration]. *)
Definition Duration_neg (d : Duration) : Duration := wrap64 (- d).

Definition Time_Add (t : Time) (d : Duration) : Time := t + d.
Definition Time_Before (t u : Time) : bool := t <? u.
Definition Time_After (t u : Time) : bool := u <? t.

(** [http.Status...] *)
Definition StatusOK : Z := 200.
Definition StatusBadRequest : Z := 400.
Definition StatusUnauthorized : Z := 401.
Definition StatusForbidden : Z := 403.
Definition StatusInternalServerError : Z := 500.

(** [prometheusFindLabelsResponse] *)
Record prometheusFindLabelsResponse : Type := mkLabelsResponse {
  Status : string;
  Data : list string
}.

(** The selector of one parsed expression, as each handler builds it before
    it queries: [processMatchers], then [buildWarp10Selector] and [String]. *)
Definition findQueryOf `{!Collaborators} (matcherObjs : list Matcher) : string :=
  let '(className, labels) := processMatchers matcherObjs in
  buildWarp10Selector className labels.
(** ** The revision with echo handlers (proto/prom/find.go) *)

Module Handlers.

(** What a handler reads from the request: [core.RetrieveToken(r)],
    [ctx.Param("label")], the error of [r.ParseForm()],
    [r.Form["match[]"]], [r.URL.Query()["match[]"]] and
    [ctx.QueryParam("start")]. *)
Record Request : Type := mkRequest {
  token : string;
  label : string;
  formErr : option string;
  form_match : list string;
  query_match : list string;
  query_start : string
}.

(** What a handler writes: [respondWithError(w, err, code)],
    [ctx.JSON(code, map[string]string{"error": msg})],
    [ctx.JSON(code, resp)], or [w.Write] of the marshalled [resp]. A nil
    slice and an empty slice are both the empty list. *)
Inductive Response : Type :=
  | RespondWithError (err : string) (code : Z)
  | JSONError (code : Z) (msg : string)
  | JSONLabels (code : Z) (resp : prometheusFindLabelsResponse)
  | WriteLabels (resp : prometheusFindLabelsResponse).

(** The request [r] with other values under [match[]] in its form. *)
Definition withFormMatch (r : Request) (matchers : list string) : Request :=
  mkRequest (token r) (label r) (formErr r) matchers (query_match r) (query_start r).

Definition emptySuccess : Response :=
  JSONLabels StatusOK (mkLabelsResponse "success" []).

(** *** FindLabelsValues *)

(** The loop over [gtss.GTS] that fills [resp.Data]. *)
Definition collectValues (labelValue : string) (gtss : list GeoTimeSeries)
    (data : list string) : list string :=
  foldl (λ data gts,
           if String.eqb labelValue "__name__" then data ++ [Class_ gts]
           else match Labels gts !! labelValue with
                | Some value => data ++ [value]
                | None => data
                end)
        data gtss.

Definition FindLabelsValues `{!Collaborators} `{!Warp10 Time}
    (r : Request) : M (Call Time) Response :=
  if Nat.eqb (String.length (token r)) 0 then
    mret (RespondWithError "unauthorized, please provide a READ token" StatusForbidden)
  else
  let labelValue := label r in
  if Nat.eqb (String.length labelValue) 0 then
    mret (RespondWithError "unprocessable Entity: label" StatusBadRequest)
  else
  match formErr r with
  | Some _ => mret (RespondWithError "failed to parse form data" StatusBadRequest)
  | None =>
  let matchers := form_match r in
  match matchers with
  | [] => mret emptySuccess
  | matchers_0 :: _ =>
  let '(matcherObjs, err) := ParseMetricSelector matchers_0 in
  match err with
  | Some e => mret (RespondWithError e StatusBadRequest)
  | None =>
  let '(classname, labels) := processMatchers matcherObjs in
  let findQuery := buildWarp10Selector classname labels in
  gtss ← queryGTS (token r) findQuery zeroTime;
  match gtss with
  | FindErr e => mret (RespondWithError e StatusInternalServerError)
  | FindOK gts =>
      mret (WriteLabels
              (mkLabelsResponse "success" (unique (collectValues labelValue gts []))))
  end end end end.

(** *** FindLabels *)

(** The two loops over [gts.Labels] and [gts.Attrs] for every series. *)
Definition collectLabelNames (gtss : list GeoTimeSeries) (labelSet : gset string)
  : gset string :=
  foldl (λ labelSet gts,
           let labelSet := labelSet ∪ filter (λ key, key ≠ ".app") (dom (Labels gts)) in
           labelSet ∪ dom (Attrs gts))
        labelSet gtss.

(** The loop over the matcher expressions; [inl] is an early return. *)
Fixpoint FindLabels_loop `{!Collaborators} `{!Warp10 Time}
    (token : string) (matchers : list string) (labelSet : gset string)
  : M (Call Time) (Response + gset string) :=
  match matchers with
  | [] => mret (inr labelSet)
  | matcher :: rest =>
      let '(matcherObjs, err) := ParseMetricSelector matcher in
      match err with
      | Some e =>
          mret (inl (JSONError StatusBadRequest ("invalid matcher format: " +:+ e)))
      | None =>
          let '(className, labels) := processMatchers matcherObjs in
          let findQuery := buildWarp10Selector className labels in
          gtss ← queryGTS token findQuery zeroTime;
          match gtss with
          | FindErr _ =>
              mret (inl (JSONError StatusInternalServerError
                           "internal server error while searching for series"))
          | FindOK gts =>
              let labelSet := {["__name__"]} ∪ labelSet in
              FindLabels_loop token rest (collectLabelNames gts labelSet)
          end
      end
  end.

Definition FindLabels `{!Collaborators} `{!Warp10 Time} `{!GoLib}
    (r : Request) : M (Call Time) Response :=
  if Nat.eqb (String.length (token r)) 0 then
    mret (RespondWithError "unauthorized, please provide a READ token" StatusForbidden)
  else
  match formErr r with
  | Some _ => mret (JSONError StatusBadRequest "failed to parse form data")
  | None =>
  let matchers := form_match r in
  if Nat.eqb (length matchers) 0 then mret emptySuccess
  else
  res ← FindLabels_loop (token r) matchers ∅;
  match res with
  | inl early => mret early
  | inr labelSet =>
      mret (JSONLabels StatusOK (mkLabelsResponse "success" (mapKeys labelSet)))
  end end.

(** *** FindClassnames *)

(** The inner loop that looks for a [__name__] matcher in one parsed
    expression; [inl] is an early return. *)
Fixpoint nameMatcherLoop `{!GoLib}
    (matcherObjs : list Matcher) (hasNameMatcher : bool) : Response + bool :=
  match matcherObjs with
  | [] => inr hasNameMatcher
  | m :: rest =>
      if String.eqb (Name m) "__name__" then
        if Nat.ltb (String.length (TrimSpace (Value m))) 7 then
          inl (JSONError StatusBadRequest "Search must contain at least 3 characters")
        else nameMatcherLoop rest true
      else nameMatcherLoop rest hasNameMatcher
  end.

(** The first loop over the expressions, which only validates. *)
Fixpoint validateLoop `{!Collaborators} `{!GoLib}
    (matchers : list string) : option Response :=
  match matchers with
  | [] => None
  | matcher :: rest =>
      let '(matcherObjs, err) := ParseMetricSelector matcher in
      match err with
      | Some e =>
          Some (JSONError StatusBadRequest ("invalid matcher format: " +:+ e))
      | None =>
          match nameMatcherLoop matcherObjs false with
          | inl early => Some early
          | inr hasNameMatcher =>
              if negb hasNameMatcher then
                Some (JSONError StatusBadRequest
                        "query must include a matcher for __name__")
              else validateLoop rest
          end
      end
  end.

(** The selector that the second loop sends for one expression. The
    error of the second parse is dropped, as in the source. *)
Definition selectorOf `{!Collaborators} (uriLabel matcher : string) : string :=
  let '(matcherObjs, _) := ParseMetricSelector matcher in
  let '(className, labels) := processMatchers matcherObjs in
  let labels :=
    if negb (String.eqb uriLabel "") && negb (String.eqb uriLabel "__name__")
    then <[uriLabel := "~.*"]> labels else labels in
  let findQuery := buildWarp10Selector className labels in
  "~" +:+ findQuery.

(** The second loop over the expressions, which queries. *)
Fixpoint queryLoop `{!Collaborators} `{!Warp10 Time}
    (token uriLabel : string) (startTime : Time)
    (matchers : list string) (data : list string)
  : M (Call Time) (Response + list string) :=
  match matchers with
  | [] => mret (inr data)
  | matcher :: rest =>
      let selector := selectorOf uriLabel matcher in
      gtss ← queryGTS token selector startTime;
      match gtss with
      | FindErr _ =>
          mret (inl (JSONError StatusInternalServerError
                       "internal server error while searching for series"))
      | FindOK gts => queryLoop token uriLabel startTime rest (data ++ map Class_ gts)
      end
  end.

Definition FindClassnames `{!Collaborators} `{!Warp10 Time} `{!GoLib}
    (r : Request) : M (Call Time) Response :=
  if Nat.eqb (String.length (token r)) 0 then
    mret (RespondWithError "unauthorized, please provide a READ token" StatusForbidden)
  else
  let matchers := query_match r in
  if Nat.eqb (length matchers) 0 then mret emptySuccess
  else
  match validateLoop matchers with
  | Some early => mret early
  | None =>
  let startTime := zeroTime in
  let start :=
    if negb (String.eqb (query_start r) "") then
      let '(startTimeSec, err) := ParseInt (query_start r) in
      let startTime := time_Unix startTimeSec in
      match err with
      | Some _ => inl (JSONError StatusBadRequest "failed to parse start time")
      | None => inr startTime
      end
    else inr startTime in
  match start with
  | inl early => mret early
  | inr startTime =>
  res ← queryLoop (token r) (label r) startTime matchers [];
  match res with
  | inl early => mret early
  | inr data => mret (JSONLabels StatusOK (mkLabelsResponse "success" (unique data)))
  end end end.

End Handlers.
(** ** The revision with FindClassnames over primitive parameters *)

Module Core.

Definition DEFAULT_METRIC_SELECTOR : string := "(http|prometheus).*".
Definition DEFAULT_METRIC_SELECTOR_GCOUNT : Z := 100.
Definition MAX_GCOUNT_PER_FIND : Z := 200.

(** [core.FindParameters], with the one field this file sets; its zero
    value has [GCount = 0]. *)
Record FindParameters : Type := mkFindParameters {
  GCount : Z
}.

(** *** applyTimeRangeLimits *)

(** The process-wide state the function reads: the [viper] configuration
    and the clock. [clock w k] is what the [k]-th call of [time.Now]
    returns, and [ticks w] counts the calls made so far. *)
Record World : Type := mkWorld {
  viper : string → string;
  clock : nat → Time;
  ticks : nat
}.

Definition viper_GetString (key : string) (w : World) : string := viper w key.

Definition time_Now (w : World) : Time * World :=
  (clock w (ticks w), mkWorld (viper w) (clock w) (S (ticks w))).

(** The two durations the function works with: the configured values, or
    24 hours and 7 days where a value does not parse. *)
Definition configuredDurations `{!GoLib} (w : World) : Duration * Duration :=
  let minTimeRangeStr := viper_GetString "warp10.find.activeafter.min" w in
  let maxTimeRangeStr := viper_GetString "warp10.find.activeafter.max" w in
  let minDuration :=
    match ParseDuration minTimeRangeStr with
    | Some d => d
    | None => 24 * Hour
    end in
  let maxDuration :=
    match ParseDuration maxTimeRangeStr with
    | Some d => d
    | None => 7 * 24 * Hour
    end in
  (minDuration, maxDuration).

Definition applyTimeRangeLimits `{!GoLib} (startTime : Time) (w : World)
  : Time * World :=
  let '(minDuration, maxDuration) := configuredDurations w in
  let '(now1, w) := time_Now w in
  let minAllowedTime := Time_Add now1 (Duration_neg maxDuration) in
  let '(now2, w) := time_Now w in
  let maxAllowedTime := Time_Add now2 (Duration_neg minDuration) in
  if Time_Before startTime minAllowedTime then (minAllowedTime, w)
  else if Time_After startTime maxAllowedTime then (maxAllowedTime, w)
  else (startTime, w).

(** *** FindClassnames *)

(** What [FindClassnames] returns: the series, the HTTP status and the
    error ([None] for [nil]). *)
Definition Result : Type := list GeoTimeSeries * Z * option string.

(** The substitution made when no expression is supplied. *)
Definition withDefaultSelector (matchers : list string) (params : FindParameters)
  : list string * FindParameters :=
  if Nat.eqb (length matchers) 0 then
    (matchers ++ ["{__name__=~'" +:+ DEFAULT_METRIC_SELECTOR +:+ "'}"],
     mkFindParameters DEFAULT_METRIC_SELECTOR_GCOUNT)
  else (matchers, params).

(** The inner loop that looks for a [__name__] matcher in one parsed
    expression; [inl] is the error of an early return. *)
Fixpoint nameMatcherLoop `{!GoLib}
    (matcherObjs : list Matcher) (hasNameMatcher : bool) : string + bool :=
  match matcherObjs with
  | [] => inr hasNameMatcher
  | m :: rest =>
      if String.eqb (Name m) "__name__" then
        if String.eqb (Value m) DEFAULT_METRIC_SELECTOR then
          nameMatcherLoop rest true
        else if Nat.ltb (String.length (TrimSpace (Value m))) 7 then
          inl "search must contain at least 3 characters"
        else nameMatcherLoop rest true
      else nameMatcherLoop rest hasNameMatcher
  end.

(** The first loop over the expressions, which only validates; the
    result is the status and error of an early return. *)
Fixpoint validateLoop `{!Collaborators} `{!GoLib}
    (matchers : list string) : option (Z * string) :=
  match matchers with
  | [] => None
  | matcher :: rest =>
      let '(matcherObjs, err) := ParseMetricSelector matcher in
      match err with
      | Some e => Some (StatusBadRequest, "invalid matcher format: " +:+ e)
      | None =>
          match nameMatcherLoop matcherObjs false with
          | inl e => Some (StatusBadRequest, e)
          | inr hasNameMatcher =>
              if negb hasNameMatcher then
                Some (StatusBadRequest, "query must include a matcher for __name__")
              else validateLoop rest
          end
      end
  end.

(** The selector that the second loop sends for one expression. The
    error of the second parse is dropped, as in the source. *)
Definition selectorOf `{!Collaborators} (uriLabel matcher : string) : string :=
  let '(matcherObjs, _) := ParseMetricSelector matcher in
  let '(className, labels) := processMatchers matcherObjs in
  let labels :=
    if negb (String.eqb uriLabel "") && negb (String.eqb uriLabel "__name__")
    then <[uriLabel := "~.*"]> labels else labels in
  let findQuery := buildWarp10Selector className labels in
  "~" +:+ findQuery.

(** The second loop over the expressions, which queries. *)
Fixpoint queryLoop `{!Collaborators} `{!Warp10 FindParameters}
    (token uriLabel : string) (params : FindParameters)
    (matchers : list string) (resp : list GeoTimeSeries)
  : M (Call FindParameters) Result :=
  match matchers with
  | [] => mret (resp, StatusOK, None)
  | matcher :: rest =>
      let selector := selectorOf uriLabel matcher in
      gtss ← queryGTS token selector params;
      match gtss with
      | FindErr _ =>
          mret (resp, StatusInternalServerError,
                Some "internal server error while searching for series")
      | FindOK gts => queryLoop token uriLabel params rest (resp ++ gts)
      end
  end.

Definition FindClassnames `{!Collaborators} `{!Warp10 FindParameters} `{!GoLib}
    (token : string) (matchers : list string) (startTime : Time) (uriLabel : string)
  : M (Call FindParameters) Result :=
  let resp : list GeoTimeSeries := [] in
  let params := mkFindParameters 0 in
  let '(matchers, params) := withDefaultSelector matchers params in
  match validateLoop matchers with
  | Some (code, err) => mret (resp, code, Some err)
  | None => queryLoop token uriLabel params matchers resp
  end.

End Core.
(** ** Sample collaborators, for running the handlers on concrete requests *)

Module Sample.

Definition isSpace (c : ascii) : bool :=
  let n := nat_of_ascii c in
  (Nat.eqb n 32 || (Nat.leb 9 n && Nat.leb n 13))%bool.

Fixpoint trimLeft (s : string) : string :=
  match s with
  | EmptyString => EmptyString
  | String c s' => if isSpace c then trimLeft s' else s
  end.

Fixpoint trimRight (s : string) : string :=
  match s with
  | EmptyString => EmptyString
  | String c s' =>
      let t := trimRight s' in
      if isSpace c && String.eqb t "" then EmptyString else String c t
  end.

(** [strings.TrimSpace] on ASCII white space. *)
Definition trimSpace (s : string) : string := trimRight (trimLeft s).

Definition parseInt (s : string) : Z * option string :=
  if String.eqb s "1700000000" then (1700000000, None)
  else (0, Some "invalid syntax").

(** [time.ParseDuration] has no unit for days: ["7d"] is an error. *)
Definition parseDuration (s : string) : option Z :=
  if String.eqb s "24h" then Some (24 * Hour)
  else if String.eqb s "168h" then Some (168 * Hour)
  else if String.eqb s "1h" then Some Hour
  else None.

Definition goLib : GoLib :=
  {| TrimSpace := trimSpace;
     ParseInt := parseInt;
     ParseDuration := parseDuration;
     mapKeys := elements;
     mapKeys_perm := λ s, reflexivity (elements s) |}.

(** A parser that knows a handful of selectors. *)
Definition parse (s : string) : list Matcher * option string :=
  if String.eqb s "{__name__=~'(http|prometheus).*'}" then
    ([mkMatcher MatchRegexp "__name__" "(http|prometheus).*"], None)
  else if String.eqb s "{__name__='abc'}" then
    ([mkMatcher MatchEqual "__name__" "abc"], None)
  else if String.eqb s "{__name__='abcdefg'}" then
    ([mkMatcher MatchEqual "__name__" "abcdefg"], None)
  else if String.eqb s "{__name__='cpu_usage',env='prod'}" then
    ([mkMatcher MatchEqual "__name__" "cpu_usage"; mkMatcher MatchEqual "env" "prod"],
     None)
  else if String.eqb s "{env!='prod'}" then
    ([mkMatcher MatchNotEqual "env" "prod"], None)
  else ([], Some "parse error").

Definition build (className : string) (labels : gmap string string) : string :=
  className +:+ "{"
  +:+ String.concat "," (map (λ kv : string * string, kv.1 +:+ "=" +:+ kv.2)
                             (map_to_list labels))
  +:+ "}".

Definition collaborators : Collaborators :=
  {| ParseMetricSelector := parse; buildWarp10Selector := build |}.

Definition series : list GeoTimeSeries :=
  [ mkGTS "cpu_usage" {[ "env" := "prod"; ".app" := "a1" ]} {[ "owner" := "ops" ]};
    mkGTS "cpu_usage" {[ "env" := "prod" ]} {[ "region" := "eu" ]} ].

(** A backend that always finds the same two series. *)
Definition warp10 (P : Type) : Warp10 P :=
  {| FindGTS := λ _ _, FindOK series |}.

Definition request : Handlers.Request :=
  Handlers.mkRequest "READ" "env" None
    ["{__name__='cpu_usage',env='prod'}"; "{env!='prod'}"]
    ["{__name__='cpu_usage',env='prod'}"] "".

(** A frozen clock, and the lookback bounds 24h and 7d: the second by
    default, since ["7d"] does not parse. *)
Definition T0 : Time := 1700000000 * 1000000000.

Definition world : Core.World :=
  Core.mkWorld
    (λ key, if String.eqb key "warp10.find.activeafter.min" then "24h"
            else if String.eqb key "warp10.find.activeafter.max" then "7d"
            else "")
    (λ _, T0) 0.

(** The same configuration one hour later. *)
Definition worldLater : Core.World :=
  Core.mkWorld (Core.viper world) (λ _, T0 + Hour) 0.

(** The same clock under another configuration. *)
Definition worldReconfigured : Core.World :=
  Core.mkWorld
    (λ key, if String.eqb key "warp10.find.activeafter.min" then "1h"
            else if String.eqb key "warp10.find.activeafter.max" then "24h"
            else "")
    (Core.clock world) 0.

End Sample.
(** ** Vocabulary of the statements *)

(** A [__name__] matcher whose trimmed value is too short: fewer than 7
    bytes, the default pattern excepted. *)
Definition shortName `{!GoLib} (m : Matcher) : Prop :=
  Name m = "__name__"
  ∧ Value m ≠ Core.DEFAULT_METRIC_SELECTOR
  ∧ (String.length (TrimSpace (Value m)) < 7)%nat.

(** Every [__name__] matcher of the expression is long enough. *)
Definition longNames `{!GoLib} (ms : list Matcher) : Prop :=
  ∀ m, m ∈ ms → Name m = "__name__" →
       (7 ≤ String.length (TrimSpace (Value m)))%nat.

Definition hasName (ms : list Matcher) : Prop :=
  ∃ m, m ∈ ms ∧ Name m = "__name__".

(** The expression substituted for an empty request. *)
Definition defaultExpression : string :=
  "{__name__=~'" +:+ Core.DEFAULT_METRIC_SELECTOR +:+ "'}".

(** The labels of a selector, with the constraint added for [uriLabel]. *)
Definition withUriLabel (uriLabel : string) (labels : gmap string string)
  : gmap string string :=
  if negb (String.eqb uriLabel "") && negb (String.eqb uriLabel "__name__")
  then <[uriLabel := "~.*"]> labels else labels.
(** ** Series discovery (proto/prom/find.go, FindSeries) *)

Module Series.

Definition StatusUnprocessableEntity : Z := 422.

(** What [FindSeries] writes: [respondWithError(w, err, code)] or
    [respondFind(w, resp)]. *)
Inductive Response : Type :=
  | RespondWithError (err : string) (code : Z)
  | RespondFind (resp : list (gmap string string)).

(** [for key, value := range src { if skip(key) { continue }; data[key] = value }] *)
Definition rangeInto (skip : string → bool) (src data : gmap string string)
  : gmap string string :=
  map_fold (λ key value data, if skip key then data else <[key := value]> data)
           data src.

(** The record built for one series: [__name__], then the labels without
    [.app], then the attributes. *)
Definition recordOf (gts : GeoTimeSeries) : gmap string string :=
  let data : gmap string string := ∅ in
  let data := <["__name__" := Class_ gts]> data in
  let data := rangeInto (λ key, String.eqb key ".app") (Labels gts) data in
  rangeInto (λ _, false) (Attrs gts) data.

(** The loop over [r.Form["match[]"]]; [inl] is an early return. *)
Fixpoint FindSeries_loop `{!Collaborators} `{!Warp10 Time}
    (token : string) (matchers : list string) (resp : list (gmap string string))
  : M (Call Time) (Response + list (gmap string string)) :=
  match matchers with
  | [] => mret (inr resp)
  | s :: rest =>
      let '(matchers, err) := ParseMetricSelector s in
      match err with
      | Some e => mret (inl (RespondWithError e StatusUnprocessableEntity))
      | None =>
          let '(className, labels) := processMatchers matchers in
          let findQuery := buildWarp10Selector className labels in
          gtss ← queryGTS token findQuery zeroTime;
          match gtss with
          | FindErr e => mret (inl (RespondWithError e StatusInternalServerError))
          | FindOK gts => FindSeries_loop token rest (resp ++ map recordOf gts)
          end
      end
  end.

(** The error of [r.ParseForm()] is not looked at. *)
Definition FindSeries `{!Collaborators} `{!Warp10 Time}
    (r : Handlers.Request) : M (Call Time) Response :=
  if Nat.eqb (String.length (Handlers.token r)) 0 then
    mret (RespondWithError "unauthorized, please provide a READ token" StatusForbidden)
  else
  if Nat.eqb (length (Handlers.form_match r)) 0 then
    mret (RespondWithError "no match[] parameter provided" StatusUnprocessableEntity)
  else
  res ← FindSeries_loop (Handlers.token r) (Handlers.form_match r) [];
  match res with
  | inl early => mret early
  | inr resp => mret (RespondFind resp)
  end.

End Series.

(** ** The handlers of the revision with FindClassnames over primitive
    parameters *)

Module CoreHandlers.

(** [containsString], the closure of [FindClassnamesHandler]. *)
Fixpoint containsString (slice : list string) (str : string) : bool :=
  match slice with
  | [] => false
  | item :: rest => if String.eqb item str then true else containsString rest str
  end.

(** The loop that copies the class names once each into [resp.Data]. *)
Definition collectClasses (series : list GeoTimeSeries) (data : list string)
  : list string :=
  foldl (λ data s, if negb (containsString data (Class_ s)) then data ++ [Class_ s]
                   else data)
        data series.

(** The [start] parameter of both handlers: absent, unreadable ([inl] is
    the error of [strconv.ParseInt]), or clamped by [applyTimeRangeLimits],
    which reads the clock. *)
Definition startTimeOf `{!GoLib} (start : string) (w : Core.World)
  : string + Time * Core.World :=
  if negb (String.eqb start "") then
    let '(startTimeSec, err) := ParseInt start in
    match err with
    | Some e => inl e
    | None => inr (Core.applyTimeRangeLimits (time_Unix startTimeSec) w)
    end
  else inr (zeroTime, w).

(** [FindClassnamesHandler]. The request is read as in the other revision:
    [core.RetrieveToken(r)], [r.URL.Query()["match[]"]],
    [ctx.QueryParam("start")] and [ctx.Param("label")]. *)
Definition FindClassnamesHandler
    `{!Collaborators} `{!Warp10 Core.FindParameters} `{!GoLib}
    (r : Handlers.Request) (w : Core.World) (calls : list (Call Core.FindParameters))
  : Handlers.Response * Core.World * list (Call Core.FindParameters) :=
  if Nat.eqb (String.length (Handlers.token r)) 0 then
    (Handlers.RespondWithError "please provide a READ token" StatusUnauthorized, w, calls)
  else
  let matchers := Handlers.query_match r in
  match startTimeOf (Handlers.query_start r) w with
  | inl _ =>
      (Handlers.JSONError StatusBadRequest "failed to parse start time", w, calls)
  | inr (startTime, w) =>
      let uriLabel := Handlers.label r in
      let '((series, statusCode, err), calls) :=
        Core.FindClassnames (Handlers.token r) matchers startTime uriLabel calls in
      match err with
      | Some e => (Handlers.JSONError statusCode e, w, calls)
      | None =>
          (Handlers.JSONLabels StatusOK
             (mkLabelsResponse "success" (collectClasses series [])), w, calls)
      end
  end.

(** What [handleSeriesPost] reads: the error of [io.ReadAll(r.Body)], the
    error of [r.ParseForm()], [r.Form["match[]"]], [core.RetrieveToken(r)]
    and [r.FormValue("start")]. *)
Record PostRequest : Type := mkPostRequest {
  post_bodyErr : option string;
  post_formErr : option string;
  post_match : list string;
  post_token : string;
  post_start : string
}.

(** What [handleSeriesPost] writes: [respondWithError(w, err, code)], or
    the encoded [prometheusSeriesResponse] with status 200. *)
Inductive PostResponse : Type :=
  | PostError (err : string) (code : Z)
  | PostSeries (status : string) (data : list (gmap string string)).

(** The record built for one series: [__name__], then every label. *)
Definition seriesLabels (gts : GeoTimeSeries) : gmap string string :=
  let seriesLabels : gmap string string := ∅ in
  let seriesLabels := <["__name__" := Class_ gts]> seriesLabels in
  Series.rangeInto (λ _, false) (Labels gts) seriesLabels.

Definition handleSeriesPost
    `{!Collaborators} `{!Warp10 Core.FindParameters} `{!GoLib}
    (r : PostRequest) (w : Core.World) (calls : list (Call Core.FindParameters))
  : PostResponse * Core.World * list (Call Core.FindParameters) :=
  match post_bodyErr r with
  | Some e => (PostError ("failed to read request body: " +:+ e) StatusBadRequest, w, calls)
  | None =>
  match post_formErr r with
  | Some e => (PostError ("failed to parse form data: " +:+ e) StatusBadRequest, w, calls)
  | None =>
  let matchers := post_match r in
  if Nat.eqb (length matchers) 0 then
    (PostError "no match[] parameter provided" StatusBadRequest, w, calls)
  else
  let token := post_token r in
  if Nat.eqb (String.length token) 0 then
    (PostError "please provide a READ token" StatusUnauthorized, w, calls)
  else
  match startTimeOf (post_start r) w with
  | inl e => (PostError ("failed to parse start time: " +:+ e) StatusBadRequest, w, calls)
  | inr (startTime, w) =>
      let '((series, statusCode, err), calls) :=
        Core.FindClassnames token matchers startTime "" calls in
      match err with
      | Some e => (PostError e statusCode, w, calls)
      | None => (PostSeries "success" (map seriesLabels series), w, calls)
      end
  end end end.

(** [FindLabels] of this revision, which differs from the other one in the
    third argument of [FindGTS], the status for a missing token, and the
    slice it fills: [make([]string, len(labelSet))] has that many empty
    strings before the first [append]. *)
Fixpoint FindLabels_loop `{!Collaborators} `{!Warp10 Core.FindParameters}
    (token : string) (matchers : list string) (labelSet : gset string)
  : M (Call Core.FindParameters) (Handlers.Response + gset string) :=
  match matchers with
  | [] => mret (inr labelSet)
  | matcher :: rest =>
      let '(matcherObjs, err) := ParseMetricSelector matcher in
      match err with
      | Some e =>
          mret (inl (Handlers.JSONError StatusBadRequest
                       ("invalid matcher format: " +:+ e)))
      | None =>
          let '(className, labels) := processMatchers matcherObjs in
          let findQuery := buildWarp10Selector className labels in
          gtss ← queryGTS token findQuery (Core.mkFindParameters 0);
          match gtss with
          | FindErr _ =>
              mret (inl (Handlers.JSONError StatusInternalServerError
                           "internal server error while searching for series"))
          | FindOK gts =>
              let labelSet := {["__name__"]} ∪ labelSet in
              FindLabels_loop token rest (Handlers.collectLabelNames gts labelSet)
          end
      end
  end.

Definition FindLabels `{!Collaborators} `{!Warp10 Core.FindParameters} `{!GoLib}
    (r : Handlers.Request) : M (Call Core.FindParameters) Handlers.Response :=
  if Nat.eqb (String.length (Handlers.token r)) 0 then
    mret (Handlers.RespondWithError "please provide a READ token" StatusUnauthorized)
  else
  match Handlers.formErr r with
  | Some _ => mret (Handlers.JSONError StatusBadRequest "failed to parse form data")
  | None =>
  let matchers := Handlers.form_match r in
  if Nat.eqb (length matchers) 0 then mret Handlers.emptySuccess
  else
  res ← FindLabels_loop (Handlers.token r) matchers ∅;
  match res with
  | inl early => mret early
  | inr labelSet =>
      let labels := replicate (size labelSet) "" in
      let labels := labels ++ mapKeys labelSet in
      mret (Handlers.JSONLabels StatusOK (mkLabelsResponse "success" labels))
  end end.

End CoreHandlers.
(** ** More vocabulary of the statements *)

(** The query that [FindSeries], [FindLabels] and [FindLabelsValues] send
    for an expression. *)
Definition seriesQuery `{!Collaborators} (token e : string) : Call Time :=
  mkCall token (findQueryOf (ParseMetricSelector e).1) zeroTime.

(** The request [r] with another [start] parameter in its URL. *)
Definition withQueryStart (r : Handlers.Request) (start : string) : Handlers.Request :=
  Handlers.mkRequest (Handlers.token r) (Handlers.label r) (Handlers.formErr r)
    (Handlers.form_match r) (Handlers.query_match r) start.

(** An expression that the validation of [Core.FindClassnames] accepts. *)
Definition validExpression `{!Collaborators} `{!GoLib} (e : string) : Prop :=
  (ParseMetricSelector e).2 = None
  ∧ hasName (ParseMetricSelector e).1
  ∧ ∀ m, m ∈ (ParseMetricSelector e).1 → Name m = "__name__" →
         Value m = Core.DEFAULT_METRIC_SELECTOR
         ∨ (7 ≤ String.length (TrimSpace (Value m)))%nat.
(** ** More sample collaborators *)

Module Sample2.

(** The sample parser, with two more selectors. *)
Definition parse (s : string) : list Matcher * option string :=
  if String.eqb s "{__name__='cpu_usage'}" then
    ([mkMatcher MatchEqual "__name__" "cpu_usage"], None)
  else if String.eqb s "{__name__='cpu_usage',env=~'prod|dev'}" then
    ([mkMatcher MatchEqual "__name__" "cpu_usage"; mkMatcher MatchRegexp "env" "prod|dev"],
     None)
  else Sample.parse s.

Definition collaborators : Collaborators :=
  {| ParseMetricSelector := parse; buildWarp10Selector := Sample.build |}.

(** A backend that answers [n] queries and fails from then on. *)
Definition failingAfter (n : nat) (P : Type) : Warp10 P :=
  {| FindGTS := λ calls _,
       if Nat.ltb (length calls) n then FindOK Sample.series
       else FindErr "warp10: timeout" |}.

Definition requestOf (matchers : list string) : Handlers.Request :=
  Handlers.mkRequest "READ" "env" None matchers matchers "".

Definition postRequest : CoreHandlers.PostRequest :=
  CoreHandlers.mkPostRequest None None ["{__name__='abcdefg'}"] "READ" "1700000000".

End Sample2.

(** ** The oldest revision: the translation written out in each handler *)

Module Inline.



End Inline.

(** ** Vocabulary for the queries, and characters *)

(** The query that [FindClassnames] sends for an expression, in the
    revision over primitive parameters and in the echo handler. *)
Definition classnamesQuery `{!Collaborators}
    (token uriLabel : string) (params : Core.FindParameters) (e : string)
  : Call Core.FindParameters :=
  mkCall token (Core.selectorOf uriLabel e) params.

Definition classnamesQueryAt `{!Collaborators}
    (token uriLabel : string) (startTime : Time) (e : string) : Call Time :=
  mkCall token (Core.selectorOf uriLabel e) startTime.

(** The first [n] of the queries [qs], sent one after the other once
    [calls] have been sent, are all answered with series. *)
Definition answered {P : Type} `{!Warp10 P}
    (calls qs : list (Call P)) (n : nat) : Prop :=
  ∀ (i : nat) q, (i < n)%nat → qs !! i = Some q →
    ∃ g, FindGTS (calls ++ take i qs) q = FindOK g.

(** The query number [j] of [qs] is answered with the error [err]. *)
Definition failsAt {P : Type} `{!Warp10 P}
    (calls qs : list (Call P)) (j : nat) (err : string) : Prop :=
  ∃ q, qs !! j = Some q ∧ FindGTS (calls ++ take j qs) q = FindErr err.

(** The answers [replies] are those of the backend to the queries [qs],
    sent one after the other once [calls] have been sent. *)
Definition repliesTo {P : Type} `{!Warp10 P}
    (calls qs : list (Call P)) (replies : list (list GeoTimeSeries)) : Prop :=
  length replies = length qs
  ∧ ∀ (i : nat) q reply, qs !! i = Some q → replies !! i = Some reply →
      FindGTS (calls ++ take i qs) q = FindOK reply.

(** The start time that the echo handler forwards for the request [r]:
    the zero time without a [start] parameter, [time.Unix] of its value
    when it reads as an integer. *)
Definition forwardedStart `{!GoLib} (r : Handlers.Request) (st : Time) : Prop :=
  (Handlers.query_start r = "" ∧ st = zeroTime)
  ∨ (Handlers.query_start r ≠ ""
     ∧ ∃ sec, ParseInt (Handlers.query_start r) = (sec, None) ∧ st = time_Unix sec).

(** The characters of a UTF-8 string: the bytes that do not continue a
    character (those outside 128 .. 191), as [utf8.RuneCountInString] counts
    them in well-formed text. *)
Fixpoint runeCount (s : string) : nat :=
  match s with
  | EmptyString => 0
  | String c rest =>
      let n := nat_of_ascii c in
      if Nat.leb 128 n && Nat.leb n 191 then runeCount rest
      else S (runeCount rest)
  end.


Module Sample3.


(** The sample parser, with a metric name of four two-byte characters. *)
Definition parse (s : string) : list Matcher * option string :=
  if String.eqb s "{__name__=~'éééé'}" then
    ([mkMatcher MatchRegexp "__name__" "éééé"], None)
  else Sample2.parse s.

Definition collaborators : Collaborators :=
  {| ParseMetricSelector := parse; buildWarp10Selector := Sample.build |}.

End Sample3.
(** ** Facts about processMatchers *)

Lemma labelsValue_constraintString (m : Matcher) :
  labelsValue m = constraintString (Type_ m) (Value m).
Proof. unfold labelsValue. by destruct (Type_ m). Qed.

Lemma processMatchers_snoc (ms : list Matcher) (m : Matcher) :
  processMatchers (ms ++ [m]) = processMatchers_step (processMatchers ms) m.
Proof. unfold processMatchers. by rewrite foldl_app. Qed.

Lemma foldl_step_app (acc : string * gmap string string) (ms : list Matcher) (m : Matcher) :
  foldl processMatchers_step acc (ms ++ [m])
  = processMatchers_step (foldl processMatchers_step acc ms) m.
Proof. by rewrite foldl_app. Qed.

(** Matchers on other labels leave the entry of [k] alone. *)
Lemma foldl_step_lookup_other (k : string) (ms : list Matcher) :
  ∀ acc : string * gmap string string,
    Forall (λ m, Name m ≠ k) ms →
    (foldl processMatchers_step acc ms).2 !! k = acc.2 !! k.
Proof.
  induction ms as [|m ms IH]; intros acc Hall; [done|].
  apply Forall_cons in Hall as [Hm Hms]. simpl. rewrite IH by done.
  unfold processMatchers_step.
  destruct (String.eqb (Name m) "__name__"); simpl; [done|].
  by rewrite lookup_insert_ne.
Qed.

(** The reserved label is never inserted. *)
Lemma foldl_step_reserved (ms : list Matcher) :
  ∀ acc : string * gmap string string,
    (foldl processMatchers_step acc ms).2 !! "__name__" = acc.2 !! "__name__".
Proof.
  induction ms as [|m ms IH]; intros acc; [done|].
  simpl. rewrite IH. unfold processMatchers_step.
  destruct (String.eqb (Name m) "__name__") eqn:E; simpl; [done|].
  apply String.eqb_neq in E. by rewrite lookup_insert_ne.
Qed.

Lemma foldl_step_className (ms : list Matcher) :
  ∀ acc : string * gmap string string,
    (foldl processMatchers_step acc ms).1 = default acc.1 (lastNameValue ms).
Proof.
  induction ms as [|m ms IH]; intros acc; [done|].
  simpl. rewrite IH. unfold processMatchers_step.
  destruct (lastNameValue ms); simpl; [done|].
  by destruct (String.eqb (Name m) "__name__").
Qed.

(** C1. For every matcher list, a matcher on an ordinary label (not
    [__name__]) that no later matcher of the list overrides leaves in the
    label map exactly its encoded constraint: the value itself for [=],
    ["~" + value] for [=~], and ["~(?!" + value + ").*"] for [!=] and for
    [!~]. The value stored by one loop iteration is that encoding for each
    of the four operators. *)
Theorem processMatchers_constraint (pre post : list Matcher) (m : Matcher) :
  Name m ≠ "__name__" →
  Forall (λ m', Name m' ≠ Name m) post →
  (processMatchers (pre ++ m :: post)).2 !! Name m
    = Some (constraintString (Type_ m) (Value m))
  ∧ (∀ n v, n ≠ "__name__" →
       (processMatchers (pre ++ [mkMatcher MatchEqual n v])).2 !! n = Some v
       ∧ (processMatchers (pre ++ [mkMatcher MatchRegexp n v])).2 !! n
           = Some ("~" +:+ v)
       ∧ (processMatchers (pre ++ [mkMatcher MatchNotEqual n v])).2 !! n
           = Some ("~(?!" +:+ v +:+ ").*")
       ∧ (processMatchers (pre ++ [mkMatcher MatchNotRegexp n v])).2 !! n
           = Some ("~(?!" +:+ v +:+ ").*")).
Proof.
  intros Hname Hpost.
  assert (Hlast : ∀ m0 : Matcher, Name m0 ≠ "__name__" →
            (processMatchers (pre ++ [m0])).2 !! Name m0
            = Some (constraintString (Type_ m0) (Value m0))).
  { intros m0 H0. rewrite processMatchers_snoc. unfold processMatchers_step.
    apply String.eqb_neq in H0. rewrite H0. simpl.
    by rewrite lookup_insert_eq, labelsValue_constraintString. }
  split.
  - replace (pre ++ m :: post) with ((pre ++ [m]) ++ post)
      by (by rewrite <- app_assoc).
    unfold processMatchers. rewrite foldl_app.
    rewrite foldl_step_lookup_other by done.
    by apply Hlast.
  - intros n v Hn. repeat split.
    + by apply (Hlast (mkMatcher MatchEqual n v)).
    + by apply (Hlast (mkMatcher MatchRegexp n v)).
    + by apply (Hlast (mkMatcher MatchNotEqual n v)).
    + by apply (Hlast (mkMatcher MatchNotRegexp n v)).
Qed.

Lemma processMatchers_constraint_witness :
  (processMatchers
     ([mkMatcher MatchEqual "__name__" "test_metric";
       mkMatcher MatchEqual "env" "prod"]
      ++ mkMatcher MatchNotRegexp "env" "prod|dev"
      :: [mkMatcher MatchRegexp "region" "us.*"])).2 !! "env"
  = Some "~(?!prod|dev).*".
Proof.
  refine (proj1 (processMatchers_constraint
            [mkMatcher MatchEqual "__name__" "test_metric";
             mkMatcher MatchEqual "env" "prod"]
            [mkMatcher MatchRegexp "region" "us.*"]
            (mkMatcher MatchNotRegexp "env" "prod|dev") _ _)).
  - simpl. discriminate.
  - repeat constructor. simpl. discriminate.
Defined.

(** C2. For every matcher list the returned class name is the value of the
    last matcher on [__name__], the empty string when there is none; the
    empty list yields the empty string and the empty map; and [__name__]
    is never a key of the returned label map. *)
Theorem processMatchers_className (ms : list Matcher) :
  (processMatchers ms).1 = default "" (lastNameValue ms)
  ∧ (lastNameValue ms = None ↔ Forall (λ m, Name m ≠ "__name__") ms)
  ∧ (∀ pre post m, ms = pre ++ m :: post → Name m = "__name__" →
       Forall (λ m', Name m' ≠ "__name__") post →
       (processMatchers ms).1 = Value m)
  ∧ processMatchers [] = ("", ∅)
  ∧ (processMatchers ms).2 !! "__name__" = None.
Proof.
  assert (Hnone : ∀ l, lastNameValue l = None ↔ Forall (λ m, Name m ≠ "__name__") l).
  { induction l as [|m l IH]; simpl; [by split; [constructor|]|].
    destruct (lastNameValue l) eqn:El.
    - split; [done|]. intros H. apply Forall_cons in H as [_ H].
      by apply IH in H.
    - destruct (String.eqb (Name m) "__name__") eqn:E.
      + apply String.eqb_eq in E. split; [done|].
        intros H. by apply Forall_cons in H as [H _].
      + apply String.eqb_neq in E. split; [|done]. intros _.
        apply Forall_cons. split; [done|]. by apply IH. }
  split; [|split; [|split; [|split]]].
  - apply foldl_step_className.
  - apply Hnone.
  - intros pre post m -> Hm Hpost.
    unfold processMatchers. rewrite foldl_step_className. simpl.
    assert (Hl : lastNameValue (pre ++ m :: post) = Some (Value m)).
    { induction pre as [|p pre IH]; simpl.
      - apply Hnone in Hpost. rewrite Hpost.
        apply String.eqb_eq in Hm. by rewrite Hm.
      - by rewrite IH. }
    by rewrite Hl.
  - done.
  - unfold processMatchers. by rewrite foldl_step_reserved.
Qed.

(** ** Facts about the helpers *)

Lemma length_zero_empty (s : string) :
  Nat.eqb (String.length s) 0 = true ↔ s = "".
Proof. destruct s; simpl; split; intros; congruence. Qed.

Lemma length_nonzero (s : string) :
  s ≠ "" → Nat.eqb (String.length s) 0 = false.
Proof.
  intros Hs. destruct (Nat.eqb (String.length s) 0) eqn:E; [|done].
  by apply length_zero_empty in E.
Qed.

Lemma unique_foldl_elem (l acc : list string) (x : string) :
  x ∈ foldl (λ list entry, if bool_decide (entry ∈ list) then list else list ++ [entry])
        acc l
  ↔ x ∈ acc ∨ x ∈ l.
Proof.
  revert acc. induction l as [|y l IH]; intros acc; simpl.
  - rewrite elem_of_nil. tauto.
  - rewrite IH, elem_of_cons. case_bool_decide as Hy.
    + split; [tauto|]. intros [?|[->|?]]; tauto.
    + rewrite elem_of_app, list_elem_of_singleton. tauto.
Qed.

(** [unique] keeps exactly the values of its argument. *)
Lemma elem_of_unique (l : list string) (x : string) : x ∈ unique l ↔ x ∈ l.
Proof. unfold unique. rewrite unique_foldl_elem, elem_of_nil. tauto. Qed.

Lemma unique_foldl_NoDup (l acc : list string) :
  NoDup acc →
  NoDup (foldl (λ list entry, if bool_decide (entry ∈ list) then list else list ++ [entry])
           acc l).
Proof.
  revert acc. induction l as [|y l IH]; intros acc Hacc; simpl; [done|].
  apply IH. case_bool_decide as Hy; [done|].
  apply NoDup_app. split; [done|]. split; [|apply NoDup_singleton].
  intros z Hz ->%list_elem_of_singleton. done.
Qed.

Lemma unique_NoDup (l : list string) : NoDup (unique l).
Proof. apply unique_foldl_NoDup, NoDup_nil_2. Qed.

Lemma unique_nil_inv (l : list string) : (∀ x, x ∉ l) → unique l = [].
Proof.
  intros Hl. destruct (unique l) as [|x u] eqn:E; [done|].
  exfalso. apply (Hl x), elem_of_unique. rewrite E. apply elem_of_cons. by left.
Qed.

(** ** Label-name and label-value discovery *)

Section LabelDiscovery.
Context {collab : Collaborators} {warp : Warp10 Time} {golib : GoLib}.

Lemma collectValues_elem (labelValue : string) (gtss : list GeoTimeSeries) :
  ∀ (data : list string) (v : string),
    v ∈ Handlers.collectValues labelValue gtss data
    ↔ v ∈ data
      ∨ ∃ gts, gts ∈ gtss
               ∧ (if String.eqb labelValue "__name__" then Class_ gts = v
                  else Labels gts !! labelValue = Some v).
Proof.
  unfold Handlers.collectValues.
  induction gtss as [|g gtss IH]; intros data v; simpl.
  - split; [by left|]. intros [?|(gts & Hin & _)]; [done|].
    by apply elem_of_nil in Hin.
  - rewrite IH. clear IH.
    assert (Hhead : v ∈ (if String.eqb labelValue "__name__" then data ++ [Class_ g]
                         else match Labels g !! labelValue with
                              | Some value => data ++ [value]
                              | None => data
                              end)
              ↔ v ∈ data ∨ (if String.eqb labelValue "__name__" then Class_ g = v
                             else Labels g !! labelValue = Some v)).
    { destruct (String.eqb labelValue "__name__").
      - rewrite elem_of_app, list_elem_of_singleton.
        split; (intros [?|?]; [by left|by right]).
      - destruct (Labels g !! labelValue) as [w|].
        + rewrite elem_of_app, list_elem_of_singleton.
          split; (intros [?|?]; [by left|right; congruence]).
        + split; [by left|]. by intros [?|?]. }
    rewrite Hhead. split.
    + intros [[?|Hg]|(gts & Hin & Hv)].
      * by left.
      * right. exists g. split; [apply elem_of_cons; by left|done].
      * right. exists gts. split; [apply elem_of_cons; by right|done].
    + intros [?|(gts & Hin & Hv)]; [by left; left|].
      apply elem_of_cons in Hin as [->|Hin]; [by left; right|].
      right. by exists gts.
Qed.

Lemma collectLabelNames_elem (gtss : list GeoTimeSeries) :
  ∀ (labelSet : gset string) (k : string),
    k ∈ Handlers.collectLabelNames gtss labelSet
    ↔ k ∈ labelSet
      ∨ ∃ gts, gts ∈ gtss
               ∧ ((k ≠ ".app" ∧ is_Some (Labels gts !! k)) ∨ is_Some (Attrs gts !! k)).
Proof.
  unfold Handlers.collectLabelNames.
  induction gtss as [|g gtss IH]; intros labelSet k; simpl.
  - split; [by left|]. intros [?|(gts & Hin & _)]; [done|].
    by apply elem_of_nil in Hin.
  - rewrite IH. clear IH.
    rewrite !elem_of_union, elem_of_filter, !elem_of_dom. split.
    + intros [[[?|[? ?]]|?]|(gts & Hin & Hk)].
      * by left.
      * right. exists g. split; [apply elem_of_cons; by left|by left].
      * right. exists g. split; [apply elem_of_cons; by left|by right].
      * right. exists gts. split; [apply elem_of_cons; by right|done].
    + intros [?|(gts & Hin & Hk)]; [by left; left; left|].
      apply elem_of_cons in Hin as [->|Hin].
      * left. destruct Hk as [[? ?]|?]; [left; right|right]; done.
      * right. by exists gts.
Qed.

(** Without expressions the loop of [FindLabels] is never entered. *)
Lemma FindLabels_loop_grows (token : string) (matchers : list string) :
  ∀ (labelSet : gset string) (calls : list (Call Time)) (s : gset string),
    (Handlers.FindLabels_loop token matchers labelSet calls).1 = inr s →
    labelSet ⊆ s.
Proof.
  induction matchers as [|e rest IH]; intros labelSet calls s; simpl.
  - unfold mret, M_ret. simpl. by intros [= ->].
  - destruct (ParseMetricSelector e) as [objs [err|]]; [done|].
    destruct (processMatchers objs) as [cls lbls].
    unfold mbind, M_bind, queryGTS.
    destruct (FindGTS calls _) as [gts|err]; [|done].
    intros Hs. apply IH in Hs. intros k Hk. apply Hs.
    apply collectLabelNames_elem. left. set_solver.
Qed.

(** C7. A label-name discovery request without matcher expressions never
    reaches the backend, and when it carries a token and its form parses,
    the answer is the success result with an empty data list. *)
Theorem FindLabels_no_matchers (r : Handlers.Request) (calls : list (Call Time)) :
  Handlers.form_match r = [] →
  (Handlers.FindLabels r calls).2 = calls
  ∧ (Handlers.token r ≠ "" → Handlers.formErr r = None →
     (Handlers.FindLabels r calls).1
     = Handlers.JSONLabels StatusOK (mkLabelsResponse "success" [])).
Proof.
  intros Hm. unfold Handlers.FindLabels. rewrite Hm. simpl. split.
  - destruct (Nat.eqb (String.length (Handlers.token r)) 0); [done|].
    by destruct (Handlers.formErr r).
  - intros Htok Hform. by rewrite (length_nonzero _ Htok), Hform.
Qed.

(** C6. A label-value discovery request with one or more expressions uses
    the first one only: the outcome is the same whatever follows it, the
    backend is queried at most once and only with the selector of the first
    expression, and exactly once when the request carries a token and a
    label, its form parses and its first expression parses. *)
Theorem FindLabelsValues_first_only
    (r : Handlers.Request) (matcher : string) (rest : list string)
    (calls : list (Call Time)) :
  Handlers.form_match r = matcher :: rest →
  let query :=
    mkCall (Handlers.token r) (findQueryOf (ParseMetricSelector matcher).1) zeroTime in
  (∀ rest', Handlers.FindLabelsValues (Handlers.withFormMatch r (matcher :: rest')) calls
            = Handlers.FindLabelsValues r calls)
  ∧ ((Handlers.FindLabelsValues r calls).2 = calls
     ∨ (Handlers.FindLabelsValues r calls).2 = calls ++ [query])
  ∧ (Handlers.token r ≠ "" → Handlers.label r ≠ "" → Handlers.formErr r = None →
     (ParseMetricSelector matcher).2 = None →
     (Handlers.FindLabelsValues r calls).2 = calls ++ [query]).
Proof.
  intros Hm query. subst query. unfold Handlers.FindLabelsValues, findQueryOf.
  rewrite Hm. simpl. split; [done|].
  destruct (ParseMetricSelector matcher) as [objs err]. simpl.
  destruct (processMatchers objs) as [cls lbls].
  unfold mbind, M_bind, queryGTS, mret, M_ret.
  split.
  - destruct (Nat.eqb (String.length (Handlers.token r)) 0); [by left|].
    destruct (Nat.eqb (String.length (Handlers.label r)) 0); [by left|].
    destruct (Handlers.formErr r); [by left|].
    destruct err; [by left|]. right.
    by destruct (FindGTS calls _).
  - intros Htok Hlab Hform ->.
    rewrite (length_nonzero _ Htok), (length_nonzero _ Hlab), Hform.
    by destruct (FindGTS calls _).
Qed.

Lemma elem_of_mapKeys (s : gset string) (k : string) : k ∈ mapKeys s ↔ k ∈ s.
Proof. by rewrite (mapKeys_perm s), elem_of_elements. Qed.

(** C10. Label-value discovery takes its values from the [Labels] mapping
    of each series (from the class name when the label is [__name__]) and
    from nowhere else: a value is returned exactly when some series has it
    under the requested label in [Labels], so a series that has the label
    only in [Attrs], or not at all, contributes nothing. Label-name
    discovery on the same series does return the keys of [Attrs]. *)
Theorem FindLabelsValues_labels_only
    (r : Handlers.Request) (matcher : string) (rest : list string)
    (calls : list (Call Time)) (gtss : list GeoTimeSeries) :
  Handlers.token r ≠ "" → Handlers.label r ≠ "" → Handlers.formErr r = None →
  Handlers.form_match r = matcher :: rest →
  (ParseMetricSelector matcher).2 = None →
  FindGTS calls
    (mkCall (Handlers.token r) (findQueryOf (ParseMetricSelector matcher).1) zeroTime)
  = FindOK gtss →
  ∃ data names,
    (Handlers.FindLabelsValues r calls).1
    = Handlers.WriteLabels (mkLabelsResponse "success" data)
    ∧ (Handlers.label r ≠ "__name__" →
       ∀ v, v ∈ data ↔ ∃ gts, gts ∈ gtss ∧ Labels gts !! Handlers.label r = Some v)
    ∧ (Handlers.label r = "__name__" →
       ∀ v, v ∈ data ↔ ∃ gts, gts ∈ gtss ∧ Class_ gts = v)
    ∧ (Handlers.label r ≠ "__name__" →
       (∀ gts, gts ∈ gtss → Labels gts !! Handlers.label r = None) → data = [])
    ∧ (Handlers.FindLabels (Handlers.withFormMatch r [matcher]) calls).1
      = Handlers.JSONLabels StatusOK (mkLabelsResponse "success" names)
    ∧ (∀ gts k, gts ∈ gtss → is_Some (Attrs gts !! k) → k ∈ names).
Proof.
  intros Htok Hlab Hform Hm Herr Hfind.
  exists (unique (Handlers.collectValues (Handlers.label r) gtss [])).
  exists (mapKeys (Handlers.collectLabelNames gtss ({["__name__"]} ∪ ∅))).
  assert (Hdata : ∀ v, v ∈ unique (Handlers.collectValues (Handlers.label r) gtss [])
            ↔ ∃ gts, gts ∈ gtss
                ∧ (if String.eqb (Handlers.label r) "__name__" then Class_ gts = v
                   else Labels gts !! Handlers.label r = Some v)).
  { intros v. rewrite elem_of_unique, collectValues_elem, elem_of_nil. tauto. }
  split; [|split; [|split; [|split; [|split]]]].
  - unfold Handlers.FindLabelsValues.
    rewrite (length_nonzero _ Htok), (length_nonzero _ Hlab), Hform, Hm.
    unfold findQueryOf in Hfind.
    destruct (ParseMetricSelector matcher) as [objs err]. simpl in *. subst err.
    destruct (processMatchers objs) as [cls lbls].
    unfold mbind, M_bind, queryGTS. by rewrite Hfind.
  - intros Hne v. rewrite Hdata. apply String.eqb_neq in Hne. by rewrite Hne.
  - intros Heq v. rewrite Hdata. apply String.eqb_eq in Heq. by rewrite Heq.
  - intros Hne Hnone. apply unique_nil_inv. intros v Hv.
    apply elem_of_unique, Hdata in Hv as (gts & Hin & Hv).
    apply String.eqb_neq in Hne. rewrite Hne in Hv.
    specialize (Hnone gts Hin). congruence.
  - unfold Handlers.FindLabels, Handlers.withFormMatch. simpl.
    rewrite (length_nonzero _ Htok), Hform.
    unfold findQueryOf in Hfind.
    destruct (ParseMetricSelector matcher) as [objs err]. simpl in *. subst err.
    destruct (processMatchers objs) as [cls lbls].
    unfold mbind, M_bind, queryGTS. by rewrite Hfind.
  - intros gts k Hin Hk. apply elem_of_mapKeys, collectLabelNames_elem.
    right. exists gts. split; [done|by right].
Qed.

End LabelDiscovery.

(** ** The clamp of the start time *)

Section TimeRange.
Context {golib : GoLib}.


(** The function as a case distinction on the two clock readings. *)
Lemma applyTimeRangeLimits_cases (startTime : Time) (w : Core.World) :
  let d := Core.configuredDurations w in
  let minAllowedTime := Core.clock w (Core.ticks w) + Duration_neg d.2 in
  let maxAllowedTime := Core.clock w (S (Core.ticks w)) + Duration_neg d.1 in
  (Core.applyTimeRangeLimits startTime w).1
  = if startTime <? minAllowedTime then minAllowedTime
    else if maxAllowedTime <? startTime then maxAllowedTime
    else startTime.
Proof.
  unfold Core.applyTimeRangeLimits.
  destruct (Core.configuredDurations w) as [minDuration maxDuration]. simpl.
  unfold Time_Before, Time_After, Time_Add.
  by repeat case_match.
Qed.


(** C8, as the code has it. The clamp takes the requested time as its one
    argument and reads the rest from the process: two configuration
    strings and two readings of the clock. Its result is a function of
    these five values, and each call advances the clock by two readings. *)
Theorem applyTimeRangeLimits_reads_world
    (startTime : Time) (w1 w2 : Core.World) :
  Core.viper w1 "warp10.find.activeafter.min"
    = Core.viper w2 "warp10.find.activeafter.min" →
  Core.viper w1 "warp10.find.activeafter.max"
    = Core.viper w2 "warp10.find.activeafter.max" →
  Core.clock w1 (Core.ticks w1) = Core.clock w2 (Core.ticks w2) →
  Core.clock w1 (S (Core.ticks w1)) = Core.clock w2 (S (Core.ticks w2)) →
  (Core.applyTimeRangeLimits startTime w1).1
    = (Core.applyTimeRangeLimits startTime w2).1
  ∧ Core.ticks (Core.applyTimeRangeLimits startTime w1).2 = S (S (Core.ticks w1))
  ∧ Core.viper (Core.applyTimeRangeLimits startTime w1).2 = Core.viper w1.
Proof.
  intros Hmin Hmax Hn1 Hn2. split; [|split].
  - rewrite !applyTimeRangeLimits_cases.
    unfold Core.configuredDurations, Core.viper_GetString.
    by rewrite Hmin, Hmax, Hn1, Hn2.
  - unfold Core.applyTimeRangeLimits.
    destruct (Core.configuredDurations w1). simpl. by repeat case_match.
  - unfold Core.applyTimeRangeLimits.
    destruct (Core.configuredDurations w1). simpl. by repeat case_match.
Qed.

End TimeRange.

(** ** Metric-name discovery *)

Section MetricNames.
Context {collab : Collaborators} {golib : GoLib}.
Context {warpT : Warp10 Time} {warpP : Warp10 Core.FindParameters}.

(** *** The validation of one expression *)

Lemma Core_nameMatcherLoop_short (ms : list Matcher) :
  ∀ b m, m ∈ ms → shortName m →
    Core.nameMatcherLoop ms b = inl "search must contain at least 3 characters".
Proof.
  induction ms as [|x ms IH]; intros b m Hin Hm; [by apply elem_of_nil in Hin|].
  simpl. destruct Hm as (Hn & Hd & Hlen).
  apply elem_of_cons in Hin as [<-|Hin].
  - apply String.eqb_eq in Hn. rewrite Hn.
    apply String.eqb_neq in Hd. rewrite Hd.
    apply Nat.ltb_lt in Hlen. by rewrite Hlen.
  - assert (Hrec := λ b', IH b' m Hin (conj Hn (conj Hd Hlen))).
    by repeat case_match.
Qed.

Lemma Core_nameMatcherLoop_long (ms : list Matcher) :
  ∀ b, longNames ms →
    Core.nameMatcherLoop ms b
    = inr (b || existsb (λ m, String.eqb (Name m) "__name__") ms).
Proof.
  induction ms as [|x ms IH]; intros b Hlong; simpl; [by rewrite orb_false_r|].
  assert (Hrest : longNames ms).
  { intros m Hin. apply Hlong, elem_of_cons. by right. }
  destruct (String.eqb (Name x) "__name__") eqn:En.
  - assert (Hx : (7 ≤ String.length (TrimSpace (Value x)))%nat).
    { apply Hlong; [apply elem_of_cons; by left|by apply String.eqb_eq]. }
    apply Nat.ltb_ge in Hx. rewrite Hx, IH by done. simpl.
    rewrite orb_true_r. by destruct (String.eqb (Value x) _).
  - by rewrite IH.
Qed.

Lemma Handlers_nameMatcherLoop_short (ms : list Matcher) :
  ∀ b m, m ∈ ms → shortName m →
    Handlers.nameMatcherLoop ms b
    = inl (Handlers.JSONError StatusBadRequest
             "Search must contain at least 3 characters").
Proof.
  induction ms as [|x ms IH]; intros b m Hin Hm; [by apply elem_of_nil in Hin|].
  simpl. destruct Hm as (Hn & Hd & Hlen).
  apply elem_of_cons in Hin as [<-|Hin].
  - apply String.eqb_eq in Hn. rewrite Hn.
    apply Nat.ltb_lt in Hlen. by rewrite Hlen.
  - assert (Hrec := λ b', IH b' m Hin (conj Hn (conj Hd Hlen))).
    by repeat case_match.
Qed.

Lemma Handlers_nameMatcherLoop_long (ms : list Matcher) :
  ∀ b, longNames ms →
    Handlers.nameMatcherLoop ms b
    = inr (b || existsb (λ m, String.eqb (Name m) "__name__") ms).
Proof.
  induction ms as [|x ms IH]; intros b Hlong; simpl; [by rewrite orb_false_r|].
  assert (Hrest : longNames ms).
  { intros m Hin. apply Hlong, elem_of_cons. by right. }
  destruct (String.eqb (Name x) "__name__") eqn:En.
  - assert (Hx : (7 ≤ String.length (TrimSpace (Value x)))%nat).
    { apply Hlong; [apply elem_of_cons; by left|by apply String.eqb_eq]. }
    apply Nat.ltb_ge in Hx. rewrite Hx, IH by done. simpl.
    by rewrite orb_true_r.
  - by rewrite IH.
Qed.

Lemma Handlers_nameMatcherLoop_inl (ms : list Matcher) :
  ∀ b early, Handlers.nameMatcherLoop ms b = inl early →
    early = Handlers.JSONError StatusBadRequest
              "Search must contain at least 3 characters".
Proof.
  induction ms as [|x ms IH]; intros b early; simpl; [done|].
  repeat case_match; try apply IH. by intros [= <-].
Qed.

Lemma hasName_existsb (ms : list Matcher) :
  hasName ms → existsb (λ m, String.eqb (Name m) "__name__") ms = true.
Proof.
  intros (m & Hin & Hn). apply existsb_exists. exists m.
  split; [by apply list_elem_of_In|by apply String.eqb_eq].
Qed.

(** *** The validation of the whole request *)

Lemma Core_validateLoop_short (matchers : list string) (e : string) (m : Matcher) :
  e ∈ matchers → m ∈ (ParseMetricSelector e).1 → shortName m →
  ∃ msg, Core.validateLoop matchers = Some (StatusBadRequest, msg).
Proof.
  intros He Hm Hshort.
  induction matchers as [|x matchers IH]; [by apply elem_of_nil in He|].
  simpl. destruct (ParseMetricSelector x) as [objs [err|]] eqn:Ex; [by eexists|].
  destruct (Core.nameMatcherLoop objs false) as [msg|has] eqn:El; [by eexists|].
  destruct has; simpl; [|by eexists].
  apply elem_of_cons in He as [->|He]; [|by apply IH].
  rewrite Ex in Hm. simpl in Hm.
  by rewrite (Core_nameMatcherLoop_short objs false m Hm Hshort) in El.
Qed.

Lemma Handlers_validateLoop_short (matchers : list string) (e : string) (m : Matcher) :
  e ∈ matchers → m ∈ (ParseMetricSelector e).1 → shortName m →
  ∃ msg, Handlers.validateLoop matchers
         = Some (Handlers.JSONError StatusBadRequest msg).
Proof.
  intros He Hm Hshort.
  induction matchers as [|x matchers IH]; [by apply elem_of_nil in He|].
  simpl. destruct (ParseMetricSelector x) as [objs [err|]] eqn:Ex; [by eexists|].
  apply elem_of_cons in He as [->|He].
  - rewrite Ex in Hm. simpl in Hm.
    rewrite (Handlers_nameMatcherLoop_short objs false m Hm Hshort). by eexists.
  - destruct (Handlers.nameMatcherLoop objs false) as [early|has] eqn:El.
    + apply Handlers_nameMatcherLoop_inl in El as ->. by eexists.
    + destruct has; simpl; [by apply IH|by eexists].
Qed.

Lemma length_nonempty (matchers : list string) (e : string) :
  e ∈ matchers → Nat.eqb (length matchers) 0 = false.
Proof. destruct matchers; [by intros ?%elem_of_nil|done]. Qed.

(** C4, as the code has it. A request in which some expression carries a
    [__name__] matcher whose trimmed value is shorter than 7 bytes ([len]
    counts bytes, not characters), and is not the default
    pattern, is answered with status 400 and an error, and the backend is
    not queried; this holds for [FindClassnames] over primitive parameters
    and, when a token is present, for the handler of the other revision.
    An expression that parses, has a [__name__] matcher and only
    [__name__] values of at least 7 bytes passes the validation. *)
Theorem FindClassnames_short_name
    (token : string) (matchers : list string) (startTime : Time) (uriLabel : string)
    (calls : list (Call Core.FindParameters)) (e : string) (m : Matcher) :
  e ∈ matchers → m ∈ (ParseMetricSelector e).1 → shortName m →
  (∃ msg, Core.FindClassnames token matchers startTime uriLabel calls
          = (([], StatusBadRequest, Some msg), calls))
  ∧ (∀ (r : Handlers.Request) (callsT : list (Call Time)),
       Handlers.token r ≠ "" → Handlers.query_match r = matchers →
       ∃ msg, Handlers.FindClassnames r callsT
              = (Handlers.JSONError StatusBadRequest msg, callsT))
  ∧ (∀ e' ms, ParseMetricSelector e' = (ms, None) → hasName ms → longNames ms →
       Core.validateLoop [e'] = None ∧ Handlers.validateLoop [e'] = None).
Proof.
  intros He Hm Hshort. split; [|split].
  - destruct (Core_validateLoop_short matchers e m He Hm Hshort) as [msg Hv].
    exists msg. unfold Core.FindClassnames, Core.withDefaultSelector.
    by rewrite (length_nonempty _ _ He), Hv.
  - intros r callsT Htok <-.
    destruct (Handlers_validateLoop_short _ e m He Hm Hshort) as [msg Hv].
    exists msg. unfold Handlers.FindClassnames.
    by rewrite (length_nonzero _ Htok), (length_nonempty _ _ He), Hv.
  - intros e' ms Hp Hhas Hlong. simpl. rewrite Hp.
    rewrite Core_nameMatcherLoop_long, Handlers_nameMatcherLoop_long by done.
    by rewrite (hasName_existsb _ Hhas).
Qed.

End MetricNames.

(** ** The queries of metric-name discovery *)

Section Queries.
Context {collab : Collaborators} {golib : GoLib}.
Context {warpT : Warp10 Time} {warpP : Warp10 Core.FindParameters}.

(** The selector sent for an expression is ["~"] in front of the built
    selector, in both revisions. *)
Lemma selectorOf_forced (uriLabel matcher : string) :
  Core.selectorOf uriLabel matcher
  = "~" +:+ buildWarp10Selector
              (processMatchers (ParseMetricSelector matcher).1).1
              (withUriLabel uriLabel
                 (processMatchers (ParseMetricSelector matcher).1).2)
  ∧ Handlers.selectorOf uriLabel matcher = Core.selectorOf uriLabel matcher.
Proof.
  unfold Core.selectorOf, Handlers.selectorOf, withUriLabel.
  destruct (ParseMetricSelector matcher) as [objs err]. simpl.
  by destruct (processMatchers objs).
Qed.

(** The operator of a [__name__] matcher is never looked at. *)
Lemma processMatchers_name_type (pre post : list Matcher) (t : MatchType) (v : string) :
  processMatchers (pre ++ mkMatcher t "__name__" v :: post)
  = processMatchers (pre ++ mkMatcher MatchEqual "__name__" v :: post).
Proof. unfold processMatchers. by rewrite !foldl_app. Qed.

(** The second loop queries for a prefix of the expressions, in order, and
    for all of them when it ends with status 200. *)
Lemma Core_queryLoop_calls
    (token uriLabel : string) (params : Core.FindParameters) (matchers : list string) :
  ∀ (resp : list GeoTimeSeries) (calls : list (Call Core.FindParameters)),
  ∃ k : nat,
    (Core.queryLoop token uriLabel params matchers resp calls).2
    = calls ++ take k (map (λ e, mkCall token (Core.selectorOf uriLabel e) params)
                           matchers)
    ∧ ((Core.queryLoop token uriLabel params matchers resp calls).1.1.2 = StatusOK →
       k = length matchers).
Proof.
  induction matchers as [|e rest IH]; intros resp calls; simpl.
  - exists 0%nat. by rewrite app_nil_r.
  - unfold mbind, M_bind, queryGTS.
    destruct (FindGTS calls _) as [gts|err].
    + destruct (IH (resp ++ gts)
                  (calls ++ [mkCall token (Core.selectorOf uriLabel e) params]))
        as (k & Hk & Hall).
      exists (S k). simpl. rewrite Hk, <- app_assoc. split; [done|].
      intros Hok. by rewrite (Hall Hok).
    + exists 1%nat. simpl. rewrite take_0. split; [done|]. discriminate.
Qed.

Lemma Handlers_queryLoop_calls
    (token uriLabel : string) (startTime : Time) (matchers : list string) :
  ∀ (data : list string) (calls : list (Call Time)),
  ∃ k : nat,
    (Handlers.queryLoop token uriLabel startTime matchers data calls).2
    = calls ++ take k (map (λ e, mkCall token (Handlers.selectorOf uriLabel e) startTime)
                           matchers).
Proof.
  induction matchers as [|e rest IH]; intros data calls; simpl.
  - exists 0%nat. by rewrite app_nil_r.
  - unfold mbind, M_bind, queryGTS.
    destruct (FindGTS calls _) as [gts|err].
    + destruct (IH (data ++ map Class_ gts)
                  (calls ++ [mkCall token (Handlers.selectorOf uriLabel e) startTime]))
        as (k & Hk).
      exists (S k). simpl. by rewrite Hk, <- app_assoc.
    + exists 1%nat. simpl. by rewrite take_0.
Qed.

Lemma answered_cons {P : Type} `{!Warp10 P}
    (calls : list (Call P)) (q : Call P) (qs : list (Call P)) (n : nat) :
  answered calls (q :: qs) (S n) →
  (∃ g, FindGTS calls q = FindOK g) ∧ answered (calls ++ [q]) qs n.
Proof.
  intros Ha. split.
  - destruct (Ha 0%nat q) as [g Hg]; [lia|done|].
    exists g. simpl in Hg. by rewrite app_nil_r in Hg.
  - intros i q' Hi Hq'. destruct (Ha (S i) q') as [g Hg]; [lia|done|].
    exists g. simpl in Hg. by rewrite <- app_assoc.
Qed.

Lemma failsAt_cons {P : Type} `{!Warp10 P}
    (calls : list (Call P)) (q : Call P) (qs : list (Call P)) (j : nat) (err : string) :
  failsAt calls (q :: qs) (S j) err → failsAt (calls ++ [q]) qs j err.
Proof.
  intros (q' & Hq' & Hf). exists q'. split; [done|].
  simpl in Hf. by rewrite <- app_assoc.
Qed.

Lemma failsAt_head {P : Type} `{!Warp10 P}
    (calls : list (Call P)) (q : Call P) (qs : list (Call P)) (err : string) :
  failsAt calls (q :: qs) 0 err → FindGTS calls q = FindErr err.
Proof.
  intros (q' & [= <-] & Hf). simpl in Hf. by rewrite app_nil_r in Hf.
Qed.

(** The second loop sends the query of each expression in turn for as long
    as the backend answers: all of them when every one is answered, and
    those up to the first failure otherwise. *)
Lemma Core_queryLoop_exact
    (token uriLabel : string) (params : Core.FindParameters) (matchers : list string) :
  ∀ (resp : list GeoTimeSeries) (calls : list (Call Core.FindParameters)),
    let qs := map (classnamesQuery token uriLabel params) matchers in
    let out := Core.queryLoop token uriLabel params matchers resp calls in
    (answered calls qs (length qs) → out.2 = calls ++ qs ∧ out.1.1.2 = StatusOK)
    ∧ (∀ j err, answered calls qs j → failsAt calls qs j err →
         out.2 = calls ++ take (S j) qs ∧ out.1.1.2 = StatusInternalServerError).
Proof.
  induction matchers as [|e rest IH]; intros resp calls; simpl.
  - split.
    + intros _. by rewrite app_nil_r.
    + intros j err _ (q & Hq & _). done.
  - unfold mbind, M_bind, queryGTS.
    fold (classnamesQuery token uriLabel params e).
    split.
    + intros Ha. apply answered_cons in Ha as [[g Hg] Ha]. rewrite Hg.
      destruct (IH (resp ++ g) (calls ++ [classnamesQuery token uriLabel params e]))
        as [Hall _].
      destruct (Hall Ha) as [Hc Hs]. by rewrite Hc, <- app_assoc.
    + intros [|j] err Ha Hf.
      * apply failsAt_head in Hf. rewrite Hf. simpl. by rewrite take_0.
      * apply answered_cons in Ha as [[g Hg] Ha]. rewrite Hg.
        apply failsAt_cons in Hf.
        destruct (IH (resp ++ g) (calls ++ [classnamesQuery token uriLabel params e]))
          as [_ Hfail].
        destruct (Hfail j err Ha Hf) as [Hc Hs]. by rewrite Hc, <- app_assoc.
Qed.

Lemma Handlers_queryLoop_exact
    (token uriLabel : string) (startTime : Time) (matchers : list string) :
  ∀ (data : list string) (calls : list (Call Time)),
    let qs := map (classnamesQueryAt token uriLabel startTime) matchers in
    let out := Handlers.queryLoop token uriLabel startTime matchers data calls in
    (answered calls qs (length qs) → out.2 = calls ++ qs ∧ ∃ d, out.1 = inr d)
    ∧ (∀ j err, answered calls qs j → failsAt calls qs j err →
         out.2 = calls ++ take (S j) qs
         ∧ out.1 = inl (Handlers.JSONError StatusInternalServerError
                          "internal server error while searching for series")).
Proof.
  induction matchers as [|e rest IH]; intros data calls; simpl.
  - split.
    + intros _. rewrite app_nil_r. split; [done|by eexists].
    + intros j err _ (q & Hq & _). done.
  - unfold mbind, M_bind, queryGTS.
    rewrite (proj2 (selectorOf_forced uriLabel e)).
    fold (classnamesQueryAt token uriLabel startTime e).
    split.
    + intros Ha. apply answered_cons in Ha as [[g Hg] Ha]. rewrite Hg.
      destruct (IH (data ++ map Class_ g)
                  (calls ++ [classnamesQueryAt token uriLabel startTime e]))
        as [Hall _].
      destruct (Hall Ha) as [Hc Hs]. by rewrite Hc, <- app_assoc.
    + intros [|j] err Ha Hf.
      * apply failsAt_head in Hf. rewrite Hf. simpl. by rewrite take_0.
      * apply answered_cons in Ha as [[g Hg] Ha]. rewrite Hg.
        apply failsAt_cons in Hf.
        destruct (IH (data ++ map Class_ g)
                    (calls ++ [classnamesQueryAt token uriLabel startTime e]))
          as [_ Hfail].
        destruct (Hfail j err Ha Hf) as [Hc Hs]. by rewrite Hc, <- app_assoc.
Qed.

(** With at least one expression the loop sends at least its first query. *)
Lemma Core_queryLoop_first
    (token uriLabel : string) (params : Core.FindParameters)
    (e : string) (rest : list string) (resp : list GeoTimeSeries)
    (calls : list (Call Core.FindParameters)) :
  ∃ more : list (Call Core.FindParameters),
    (Core.queryLoop token uriLabel params (e :: rest) resp calls).2
    = calls ++ classnamesQuery token uriLabel params e :: more.
Proof.
  simpl. unfold mbind, M_bind, queryGTS.
  fold (classnamesQuery token uriLabel params e).
  destruct (FindGTS calls _) as [gts|err]; [|by exists []].
  destruct (Core_queryLoop_calls token uriLabel params rest (resp ++ gts)
              (calls ++ [classnamesQuery token uriLabel params e])) as (k & Hk & _).
  eexists. rewrite Hk, <- app_assoc. done.
Qed.

Lemma Handlers_queryLoop_first
    (token uriLabel : string) (startTime : Time)
    (e : string) (rest : list string) (data : list string) (calls : list (Call Time)) :
  ∃ more : list (Call Time),
    (Handlers.queryLoop token uriLabel startTime (e :: rest) data calls).2
    = calls ++ classnamesQueryAt token uriLabel startTime e :: more.
Proof.
  simpl. unfold mbind, M_bind, queryGTS.
  rewrite (proj2 (selectorOf_forced uriLabel e)).
  fold (classnamesQueryAt token uriLabel startTime e).
  destruct (FindGTS calls _) as [gts|err]; [|by exists []].
  destruct (Handlers_queryLoop_calls token uriLabel startTime rest
              (data ++ map Class_ gts)
              (calls ++ [classnamesQueryAt token uriLabel startTime e])) as (k & Hk).
  eexists. rewrite Hk, <- app_assoc. done.
Qed.

Lemma withDefaultSelector_nonempty (matchers : list string) (params : Core.FindParameters) :
  (Core.withDefaultSelector matchers params).1 ≠ [].
Proof. unfold Core.withDefaultSelector. by destruct matchers. Qed.

Lemma Handlers_FindClassnames_run
    (r : Handlers.Request) (callsT : list (Call Time)) (st : Time) :
  Handlers.token r ≠ "" → Handlers.query_match r ≠ [] →
  Handlers.validateLoop (Handlers.query_match r) = None →
  forwardedStart r st →
  (Handlers.FindClassnames r callsT).2
  = (Handlers.queryLoop (Handlers.token r) (Handlers.label r) st
       (Handlers.query_match r) [] callsT).2.
Proof.
  intros Htok Hm Hv Hst. unfold Handlers.FindClassnames.
  rewrite (length_nonzero _ Htok), Hv.
  replace (Nat.eqb (length (Handlers.query_match r)) 0) with false
    by (by destruct (Handlers.query_match r)).
  destruct Hst as [[Hs ->]|(Hs & sec & Hp & ->)].
  - rewrite Hs. simpl. unfold mbind, M_bind.
    by destruct (Handlers.queryLoop _ _ _ _ _ _) as [[early|data] calls'].
  - apply String.eqb_neq in Hs. rewrite Hs, Hp. simpl. unfold mbind, M_bind.
    by destruct (Handlers.queryLoop _ _ _ _ _ _) as [[early|data] calls'].
Qed.

(** The queries of both revisions are a prefix of the forced-regex queries
    of the expressions. *)
Lemma FindClassnames_calls_prefix
    (token : string) (matchers : list string) (startTime : Time) (uriLabel : string)
    (calls : list (Call Core.FindParameters)) :
  let eff := Core.withDefaultSelector matchers (Core.mkFindParameters 0) in
  let out := Core.FindClassnames token matchers startTime uriLabel calls in
  (∃ k : nat,
     out.2 = calls ++ take k (map (λ e, mkCall token (Core.selectorOf uriLabel e) eff.2)
                                  eff.1)
     ∧ (out.1.1.2 = StatusOK → k = length eff.1))
  ∧ (∀ e, Core.selectorOf uriLabel e
          = "~" +:+ buildWarp10Selector
                      (processMatchers (ParseMetricSelector e).1).1
                      (withUriLabel uriLabel
                         (processMatchers (ParseMetricSelector e).1).2))
  ∧ (∀ pre post t v,
       processMatchers (pre ++ mkMatcher t "__name__" v :: post)
       = processMatchers (pre ++ mkMatcher MatchEqual "__name__" v :: post))
  ∧ (∀ (r : Handlers.Request) (callsT : list (Call Time)),
     ∃ (k : nat) (start : Time),
       (Handlers.FindClassnames r callsT).2
       = callsT ++ take k (map (λ e, mkCall (Handlers.token r)
                                       (Core.selectorOf (Handlers.label r) e) start)
                               (Handlers.query_match r))).
Proof.
  intros eff out. subst eff out. split; [|split; [|split]].
  - unfold Core.FindClassnames.
    destruct (Core.withDefaultSelector matchers _) as [ms params]. simpl.
    destruct (Core.validateLoop ms) as [[code err]|] eqn:Ev.
    + exists 0%nat. simpl. rewrite take_0, app_nil_r. split; [done|].
      intros ->. exfalso. clear -Ev. revert Ev.
      induction ms as [|x ms IH]; simpl; [done|].
      repeat case_match; try done; try apply IH; discriminate.
    + apply Core_queryLoop_calls.
  - intros e. apply selectorOf_forced.
  - apply processMatchers_name_type.
  - intros r callsT. unfold Handlers.FindClassnames.
    assert (Hnone : ∀ resp : Handlers.Response,
              ∃ (k : nat) (start : Time),
                ((mret resp : M (Call Time) Handlers.Response) callsT).2
                = callsT ++ take k (map (λ e, mkCall (Handlers.token r)
                                       (Core.selectorOf (Handlers.label r) e) start)
                                     (Handlers.query_match r))).
    { intros resp. exists 0%nat, zeroTime. by rewrite take_0, app_nil_r. }
    destruct (Nat.eqb (String.length (Handlers.token r)) 0); [apply Hnone|].
    destruct (Nat.eqb (length (Handlers.query_match r)) 0); [apply Hnone|].
    destruct (Handlers.validateLoop (Handlers.query_match r)); [apply Hnone|].
    assert (Hloop : ∀ start : Time,
              ∃ (k : nat) (start' : Time),
                ((res ← Handlers.queryLoop (Handlers.token r) (Handlers.label r) start
                          (Handlers.query_match r) [];
                  match res with
                  | inl early => mret early
                  | inr data =>
                      mret (Handlers.JSONLabels StatusOK
                              (mkLabelsResponse "success" (unique data)))
                  end : M (Call Time) Handlers.Response) callsT).2
                = callsT ++ take k (map (λ e, mkCall (Handlers.token r)
                                       (Core.selectorOf (Handlers.label r) e) start')
                                     (Handlers.query_match r))).
    { intros start.
      destruct (Handlers_queryLoop_calls (Handlers.token r) (Handlers.label r) start
                  (Handlers.query_match r) [] callsT) as (k & Hk).
      exists k, start. unfold mbind, M_bind.
      destruct (Handlers.queryLoop _ _ _ _ _ _) as [[early|data] calls']; simpl in *;
        rewrite Hk; f_equal; f_equal; apply map_ext; intros e;
        by rewrite (proj2 (selectorOf_forced _ _)). }
    destruct (negb (String.eqb (Handlers.query_start r) "")); [|apply Hloop].
    destruct (ParseInt (Handlers.query_start r)) as [sec [err|]];
      [apply Hnone|apply Hloop].
Qed.

(** C9. Every query of metric-name discovery carries the forced-regex
    selector of one of the expressions: ["~"] followed by the selector built
    from what [processMatchers] returns for it (and the constraint for the
    label of the URI), so that the operator of the [__name__] matcher does
    not enter it. Once the validation has passed, these queries are sent:
    the first one always, then one for each expression in order for as long
    as the backend answers, that is all of them when every one is answered
    (status 200) and those up to the first failure otherwise (status 500).
    The handler of the other revision sends the same selectors in the same
    way, with the start time it forwards. *)
Theorem FindClassnames_forced_regex
    (token : string) (matchers : list string) (startTime : Time) (uriLabel : string)
    (calls : list (Call Core.FindParameters)) :
  let eff := Core.withDefaultSelector matchers (Core.mkFindParameters 0) in
  let out := Core.FindClassnames token matchers startTime uriLabel calls in
  let qs := map (classnamesQuery token uriLabel eff.2) eff.1 in
  (∃ k : nat,
     out.2 = calls ++ take k (map (λ e, mkCall token (Core.selectorOf uriLabel e) eff.2)
                                  eff.1)
     ∧ (out.1.1.2 = StatusOK → k = length eff.1))
  ∧ (∀ e, Core.selectorOf uriLabel e
          = "~" +:+ buildWarp10Selector
                      (processMatchers (ParseMetricSelector e).1).1
                      (withUriLabel uriLabel
                         (processMatchers (ParseMetricSelector e).1).2))
  ∧ (∀ pre post t v,
       processMatchers (pre ++ mkMatcher t "__name__" v :: post)
       = processMatchers (pre ++ mkMatcher MatchEqual "__name__" v :: post))
  ∧ (∀ (r : Handlers.Request) (callsT : list (Call Time)),
     ∃ (k : nat) (start : Time),
       (Handlers.FindClassnames r callsT).2
       = callsT ++ take k (map (λ e, mkCall (Handlers.token r)
                                       (Core.selectorOf (Handlers.label r) e) start)
                               (Handlers.query_match r)))
  ∧ (Core.validateLoop eff.1 = None →
     (∃ q more, qs = q :: more ∧ ∃ sent, out.2 = calls ++ q :: sent)
     ∧ (answered calls qs (length qs) → out.2 = calls ++ qs ∧ out.1.1.2 = StatusOK)
     ∧ (∀ j err, answered calls qs j → failsAt calls qs j err →
          out.2 = calls ++ take (S j) qs
          ∧ out.1.1.2 = StatusInternalServerError))
  ∧ (∀ (r : Handlers.Request) (callsT : list (Call Time)) (st : Time),
       Handlers.token r ≠ "" → Handlers.query_match r ≠ [] →
       Handlers.validateLoop (Handlers.query_match r) = None →
       forwardedStart r st →
       let qsT := map (classnamesQueryAt (Handlers.token r) (Handlers.label r) st)
                      (Handlers.query_match r) in
       (∃ q more, qsT = q :: more
                  ∧ ∃ sent, (Handlers.FindClassnames r callsT).2 = callsT ++ q :: sent)
       ∧ (answered callsT qsT (length qsT) →
          (Handlers.FindClassnames r callsT).2 = callsT ++ qsT)
       ∧ (∀ j err, answered callsT qsT j → failsAt callsT qsT j err →
            (Handlers.FindClassnames r callsT).2 = callsT ++ take (S j) qsT)).
Proof.
  intros eff out qs.
  destruct (FindClassnames_calls_prefix token matchers startTime uriLabel calls)
    as (H1 & H2 & H3 & H4).
  split; [exact H1|]. split; [exact H2|]. split; [exact H3|]. split; [exact H4|].
  clear H1 H2 H3 H4. split.
  - subst out qs eff. unfold Core.FindClassnames.
    pose proof (withDefaultSelector_nonempty matchers (Core.mkFindParameters 0)) as Hne.
    destruct (Core.withDefaultSelector matchers (Core.mkFindParameters 0))
      as [ms params]. simpl in *. intros Hv. rewrite Hv.
    destruct (Core_queryLoop_exact token uriLabel params ms [] calls) as [Hall Hfail].
    split; [|split; [exact Hall|exact Hfail]].
    destruct ms as [|e rest]; [done|].
    destruct (Core_queryLoop_first token uriLabel params e rest [] calls)
      as [more Hmore].
    eexists _, _. split; [reflexivity|]. by exists more.
  - intros r callsT st Htok Hm Hv Hst qsT. subst qsT.
    rewrite (Handlers_FindClassnames_run r callsT st Htok Hm Hv Hst).
    destruct (Handlers_queryLoop_exact (Handlers.token r) (Handlers.label r) st
                (Handlers.query_match r) [] callsT) as [Hall Hfail].
    split; [|split].
    + destruct (Handlers.query_match r) as [|e rest]; [done|].
      destruct (Handlers_queryLoop_first (Handlers.token r) (Handlers.label r) st
                  e rest [] callsT) as [more Hmore].
      eexists _, _. split; [reflexivity|]. by exists more.
    + intros Ha. by apply Hall.
    + intros j err Ha Hf. by apply (Hfail j err).
Qed.

(** C5. Without expressions, [FindClassnames] over primitive parameters
    works on exactly one expression, the default one, and caps the result
    count at 100: with a parser that reads the default expression as the
    regex matcher on [__name__] it stands for, the backend receives one
    query, for the forced-regex selector of the default pattern with
    [GCount = 100], and the outcome is that of this query, not a
    validation error. Requests with expressions are left as they are. *)
Theorem FindClassnames_default
    (token : string) (startTime : Time) (uriLabel : string)
    (calls : list (Call Core.FindParameters)) :
  ParseMetricSelector defaultExpression
  = ([mkMatcher MatchRegexp "__name__" Core.DEFAULT_METRIC_SELECTOR], None) →
  let out := Core.FindClassnames token [] startTime uriLabel calls in
  let query :=
    mkCall token
      ("~" +:+ buildWarp10Selector Core.DEFAULT_METRIC_SELECTOR (withUriLabel uriLabel ∅))
      (Core.mkFindParameters 100) in
  Core.withDefaultSelector [] (Core.mkFindParameters 0)
  = (["{__name__=~'(http|prometheus).*'}"], Core.mkFindParameters 100)
  ∧ out.2 = calls ++ [query]
  ∧ match FindGTS calls query with
    | FindOK gts => out.1 = (gts, StatusOK, None)
    | FindErr _ =>
        out.1 = ([], StatusInternalServerError,
                 Some "internal server error while searching for series")
    end
  ∧ (∀ e rest params,
       Core.withDefaultSelector (e :: rest) params = (e :: rest, params)).
Proof.
  intros Hp out query. subst out query.
  split; [done|].
  unfold Core.FindClassnames. simpl.
  change ("{__name__=~'" +:+ Core.DEFAULT_METRIC_SELECTOR +:+ "'}")
    with defaultExpression.
  unfold Core.selectorOf. rewrite Hp. simpl.
  unfold mbind, M_bind, queryGTS.
  split; [|split; [|done]].
  - by destruct (FindGTS calls _).
  - by destruct (FindGTS calls _).
Qed.

(** In the revision with echo handlers the same request is answered at
    once, with an empty success result and without a query. *)
Lemma Handlers_FindClassnames_no_matchers
    (r : Handlers.Request) (callsT : list (Call Time)) :
  Handlers.token r ≠ "" → Handlers.query_match r = [] →
  Handlers.FindClassnames r callsT = (Handlers.emptySuccess, callsT).
Proof.
  intros Htok Hm. unfold Handlers.FindClassnames.
  by rewrite (length_nonzero _ Htok), Hm.
Qed.

End Queries.

(** ** More on processMatchers *)

Lemma foldl_step_is_Some (k : string) (ms : list Matcher) :
  ∀ acc : string * gmap string string,
    is_Some ((foldl processMatchers_step acc ms).2 !! k)
    ↔ is_Some (acc.2 !! k) ∨ (k ≠ "__name__" ∧ ∃ m, m ∈ ms ∧ Name m = k).
Proof.
  induction ms as [|x ms IH]; intros acc; simpl.
  - split; [by left|]. intros [?|(_ & m & Hin & _)]; [done|].
    by apply elem_of_nil in Hin.
  - rewrite IH. clear IH. unfold processMatchers_step.
    destruct (String.eqb (Name x) "__name__") eqn:E; simpl.
    + apply String.eqb_eq in E. split.
      * intros [?|(Hk & m & Hin & Hm)]; [by left|].
        right. split; [done|]. exists m. split; [apply elem_of_cons; by right|done].
      * intros [?|(Hk & m & Hin & Hm)]; [by left|].
        apply elem_of_cons in Hin as [->|Hin]; [congruence|].
        right. split; [done|]. by exists m.
    + apply String.eqb_neq in E.
      destruct (decide (Name x = k)) as [<-|Hne].
      * rewrite lookup_insert_eq. split; [|by left; eexists].
        intros _. right. split; [done|]. exists x. split; [apply elem_of_cons; by left|done].
      * rewrite lookup_insert_ne by done. split.
        -- intros [?|(Hk & m & Hin & Hm)]; [by left|].
           right. split; [done|]. exists m. split; [apply elem_of_cons; by right|done].
        -- intros [?|(Hk & m & Hin & Hm)]; [by left|].
           apply elem_of_cons in Hin as [->|Hin]; [congruence|].
           right. split; [done|]. by exists m.
Qed.

(** The keys of the returned label map are the label names of the
    matchers, [__name__] excepted. *)
Theorem processMatchers_keys (ms : list Matcher) (k : string) :
  is_Some ((processMatchers ms).2 !! k)
  ↔ k ≠ "__name__" ∧ ∃ m, m ∈ ms ∧ Name m = k.
Proof.
  unfold processMatchers. rewrite foldl_step_is_Some. simpl.
  rewrite lookup_empty. split; [|by right].
  intros [[? ?]|?]; done.
Qed.

Lemma foldl_step_union (ms : list Matcher) :
  ∀ acc : string * gmap string string,
    (foldl processMatchers_step acc ms).2 = (processMatchers ms).2 ∪ acc.2.
Proof.
  unfold processMatchers.
  induction ms as [|x ms IH]; intros acc; simpl.
  - by rewrite (left_id_L ∅ (∪)).
  - rewrite (IH (processMatchers_step acc x)),
      (IH (processMatchers_step ("", ∅) x)).
    unfold processMatchers_step.
    destruct (String.eqb (Name x) "__name__"); simpl.
    + by rewrite (right_id_L ∅ (∪)).
    + by rewrite <- (assoc_L (∪)), <- insert_union_l, (left_id_L ∅ (∪)).
Qed.

(** The translation of a concatenation: the matchers of the second list
    win, for the class name and for every label they constrain. *)
Theorem processMatchers_app (ms1 ms2 : list Matcher) :
  processMatchers (ms1 ++ ms2)
  = (default (processMatchers ms1).1 (lastNameValue ms2),
     (processMatchers ms2).2 ∪ (processMatchers ms1).2).
Proof.
  unfold processMatchers at 1. rewrite foldl_app.
  fold (processMatchers ms1).
  rewrite (surjective_pairing (foldl _ _ ms2)).
  by rewrite foldl_step_className, foldl_step_union.
Qed.

(** The table of [TestProcessMatchers]: the eight cases give the expected
    class name and label map. *)
Theorem TestProcessMatchers_passes :
  processMatchers [] = ("", ∅)
  ∧ processMatchers [mkMatcher MatchEqual "__name__" "test_metric"]
    = ("test_metric", ∅)
  ∧ processMatchers [mkMatcher MatchEqual "env" "prod";
                     mkMatcher MatchEqual "region" "us-west"]
    = ("", <["env" := "prod"]> (<["region" := "us-west"]> ∅))
  ∧ processMatchers [mkMatcher MatchEqual "__name__" "test_metric";
                     mkMatcher MatchEqual "env" "prod"]
    = ("test_metric", <["env" := "prod"]> ∅)
  ∧ processMatchers [mkMatcher MatchRegexp "env" "prod|dev"]
    = ("", <["env" := "~prod|dev"]> ∅)
  ∧ processMatchers [mkMatcher MatchNotEqual "env" "prod"]
    = ("", <["env" := "~(?!prod).*"]> ∅)
  ∧ processMatchers [mkMatcher MatchNotRegexp "env" "prod|dev"]
    = ("", <["env" := "~(?!prod|dev).*"]> ∅)
  ∧ processMatchers [mkMatcher MatchEqual "__name__" "test_metric";
                     mkMatcher MatchEqual "env" "prod";
                     mkMatcher MatchRegexp "region" "us.*";
                     mkMatcher MatchNotEqual "cluster" "test"]
    = ("test_metric",
       <["env" := "prod"]> (<["region" := "~us.*"]> (<["cluster" := "~(?!test).*"]> ∅))).
Proof. repeat split; by vm_compute. Qed.

(** ** Series discovery *)

Lemma rangeInto_lookup (skip : string → bool) (src data : gmap string string) (k : string) :
  Series.rangeInto skip src data !! k
  = match src !! k with
    | Some v => if skip k then data !! k else Some v
    | None => data !! k
    end.
Proof.
  unfold Series.rangeInto. revert k.
  apply (map_fold_weak_ind
           (λ r m, ∀ k, r !! k = match m !! k with
                                 | Some v => if skip k then data !! k else Some v
                                 | None => data !! k
                                 end)).
  - intros k. by rewrite lookup_empty.
  - intros i x m r Hi IH k. destruct (decide (i = k)) as [->|Hne].
    + rewrite lookup_insert_eq. destruct (skip k).
      * by rewrite IH, Hi.
      * by rewrite lookup_insert_eq.
    + rewrite (lookup_insert_ne m) by done. destruct (skip i).
      * apply IH.
      * rewrite lookup_insert_ne by done. apply IH.
Qed.

(** The record returned for one series: an attribute wins over a label of
    the same name, which wins over the class name under [__name__]; the
    label [.app] is dropped, an attribute [.app] is not. *)
Theorem recordOf_lookup (gts : GeoTimeSeries) (k : string) :
  Series.recordOf gts !! k
  = match Attrs gts !! k with
    | Some v => Some v
    | None =>
        if String.eqb k ".app" then None
        else match Labels gts !! k with
             | Some v => Some v
             | None => if String.eqb k "__name__" then Some (Class_ gts) else None
             end
    end.
Proof.
  unfold Series.recordOf. rewrite !rangeInto_lookup.
  destruct (Attrs gts !! k); [done|].
  destruct (String.eqb k ".app") eqn:Eapp.
  - apply String.eqb_eq in Eapp as ->.
    rewrite lookup_insert_ne, lookup_empty by done. by destruct (Labels gts !! ".app").
  - destruct (Labels gts !! k); [done|].
    destruct (String.eqb k "__name__") eqn:En.
    + apply String.eqb_eq in En as ->. by rewrite lookup_insert_eq.
    + apply String.eqb_neq in En. by rewrite lookup_insert_ne, lookup_empty.
Qed.

Section SeriesDiscovery.
Context {collab : Collaborators} {warp : Warp10 Time}.

Lemma FindSeries_loop_ok (token : string) (ms : list string) :
  ∀ (resp : list (gmap string string)) (calls : list (Call Time))
    (out : list (gmap string string)) (calls' : list (Call Time)),
    Series.FindSeries_loop token ms resp calls = (inr out, calls') →
    calls' = calls ++ map (seriesQuery token) ms
    ∧ ∃ replies : list (list GeoTimeSeries),
        length replies = length ms
        ∧ out = resp ++ concat (map (map Series.recordOf) replies)
        ∧ ∀ (i : nat) e reply,
            ms !! i = Some e → replies !! i = Some reply →
            (ParseMetricSelector e).2 = None
            ∧ FindGTS (calls ++ map (seriesQuery token) (take i ms)) (seriesQuery token e)
              = FindOK reply.
Proof.
  induction ms as [|e ms IH]; intros resp calls out calls'; simpl.
  - intros [= <- <-]. split; [by rewrite app_nil_r|].
    exists []. simpl. rewrite app_nil_r. repeat split; try done.
  - unfold seriesQuery at 1 2, findQueryOf.
    destruct (ParseMetricSelector e) as [objs [err|]] eqn:Ep; [done|]. simpl.
    destruct (processMatchers objs) as [cls lbls] eqn:Epm.
    unfold mbind, M_bind, queryGTS.
    destruct (FindGTS calls _) as [gts|err] eqn:Eg; [|done].
    intros Hloop. apply IH in Hloop as (-> & replies & Hlen & -> & Hidx).
    split; [by rewrite <- app_assoc|].
    exists (gts :: replies). simpl. split; [by rewrite Hlen|].
    split; [by rewrite <- !app_assoc|].
    intros [|i] e' reply; simpl.
    + intros [= <-] [= <-]. unfold seriesQuery, findQueryOf.
      rewrite Ep. simpl. rewrite Epm, app_nil_r. done.
    + intros He' Hr. destruct (Hidx i e' reply He' Hr) as [Hp Hq].
      split; [done|]. rewrite <- Hq. f_equal.
      rewrite <- app_assoc. simpl. unfold seriesQuery at 1, findQueryOf.
      rewrite Ep. simpl. by rewrite Epm.
Qed.

Lemma FindSeries_loop_early (token : string) (ms : list string) :
  ∀ (resp : list (gmap string string)) (calls : list (Call Time))
    (early : Series.Response) (calls' : list (Call Time)),
    Series.FindSeries_loop token ms resp calls = (inl early, calls') →
    ∃ e code, early = Series.RespondWithError e code.
Proof.
  induction ms as [|x ms IH]; intros resp calls early calls'; simpl; [done|].
  destruct (ParseMetricSelector x) as [objs [err|]].
  - intros [= <- <-]. by eexists _, _.
  - destruct (processMatchers objs) as [cls lbls].
    unfold mbind, M_bind, queryGTS.
    destruct (FindGTS calls _) as [gts|err]; [apply IH|].
    intros [= <- <-]. by eexists _, _.
Qed.

(** A successful series discovery has queried the backend once for each
    expression, in order, with the selector built from it (no regex is
    forced), and returns the records of all the series found, reply after
    reply, duplicates included. *)
Theorem FindSeries_success
    (r : Handlers.Request) (calls calls' : list (Call Time))
    (resp : list (gmap string string)) :
  Series.FindSeries r calls = (Series.RespondFind resp, calls') →
  calls' = calls ++ map (seriesQuery (Handlers.token r)) (Handlers.form_match r)
  ∧ ∃ replies : list (list GeoTimeSeries),
      length replies = length (Handlers.form_match r)
      ∧ resp = concat (map (map Series.recordOf) replies)
      ∧ length resp = sum_list (map length replies)
      ∧ ∀ (i : nat) e reply,
          Handlers.form_match r !! i = Some e → replies !! i = Some reply →
          (ParseMetricSelector e).2 = None
          ∧ FindGTS (calls ++ map (seriesQuery (Handlers.token r))
                                  (take i (Handlers.form_match r)))
                    (seriesQuery (Handlers.token r) e)
            = FindOK reply.
Proof.
  unfold Series.FindSeries.
  destruct (Nat.eqb (String.length (Handlers.token r)) 0); [done|].
  destruct (Nat.eqb (length (Handlers.form_match r)) 0); [done|].
  unfold mbind, M_bind, mret, M_ret.
  destruct (Series.FindSeries_loop _ _ _ _) as [[early|out] calls''] eqn:El.
  { apply FindSeries_loop_early in El as (e & code & ->). done. }
  intros [= <- <-].
  apply FindSeries_loop_ok in El as (-> & replies & Hlen & -> & Hidx).
  split; [done|]. exists replies. simpl. repeat split; try done.
  - clear. induction replies as [|g replies IH]; simpl; [done|].
    by rewrite length_app, length_map, IH.
  - by apply (Hidx i e reply).
  - by apply (Hidx i e reply).
Qed.

Lemma FindSeries_loop_parse_error (token : string) (pre : list string) :
  ∀ (bad : string) (post : list string) (e : string)
    (resp : list (gmap string string)) (calls : list (Call Time)),
    Forall (λ x, (ParseMetricSelector x).2 = None) pre →
    (ParseMetricSelector bad).2 = Some e →
    (∀ cs c, ∃ g, FindGTS cs c = FindOK g) →
    Series.FindSeries_loop token (pre ++ bad :: post) resp calls
    = (inl (Series.RespondWithError e Series.StatusUnprocessableEntity),
       calls ++ map (seriesQuery token) pre).
Proof.
  induction pre as [|x pre IH]; intros bad post e resp calls Hpre Hbad Hback; simpl.
  - destruct (ParseMetricSelector bad) as [objs err]. simpl in Hbad. subst err.
    by rewrite app_nil_r.
  - apply Forall_cons in Hpre as [Hx Hpre].
    unfold seriesQuery at 1, findQueryOf.
    destruct (ParseMetricSelector x) as [objs err]. simpl in *. subst err.
    destruct (processMatchers objs) as [cls lbls].
    unfold mbind, M_bind, queryGTS.
    destruct (Hback calls (mkCall token (buildWarp10Selector cls lbls) zeroTime))
      as [g ->].
    rewrite (IH bad post e) by done. by rewrite <- app_assoc.
Qed.

(** Series discovery stops at the first expression that does not parse,
    with status 422 and the error of the parser; the expressions before it
    have been queried already, and what they found is dropped. *)
Theorem FindSeries_parse_error
    (r : Handlers.Request) (pre : list string) (bad : string) (post : list string)
    (e : string) (calls : list (Call Time)) :
  Handlers.token r ≠ "" →
  Handlers.form_match r = pre ++ bad :: post →
  Forall (λ x, (ParseMetricSelector x).2 = None) pre →
  (ParseMetricSelector bad).2 = Some e →
  (∀ cs c, ∃ g, FindGTS cs c = FindOK g) →
  Series.FindSeries r calls
  = (Series.RespondWithError e Series.StatusUnprocessableEntity,
     calls ++ map (seriesQuery (Handlers.token r)) pre).
Proof.
  intros Htok Hm Hpre Hbad Hback. unfold Series.FindSeries.
  rewrite (length_nonzero _ Htok), Hm.
  replace (Nat.eqb (length (pre ++ bad :: post)) 0) with false
    by (by destruct pre).
  unfold mbind, M_bind.
  by rewrite (FindSeries_loop_parse_error _ pre bad post e).
Qed.

End SeriesDiscovery.

(** ** The validation and the queries of FindClassnames *)

Section Validation.
Context {collab : Collaborators} {golib : GoLib}.
Context {warpP : Warp10 Core.FindParameters}.

Lemma Core_nameMatcherLoop_inr (ms : list Matcher) :
  ∀ b b', Core.nameMatcherLoop ms b = inr b'
    ↔ (∀ m, m ∈ ms → Name m = "__name__" →
         Value m = Core.DEFAULT_METRIC_SELECTOR
         ∨ (7 ≤ String.length (TrimSpace (Value m)))%nat)
      ∧ b' = b || existsb (λ m, String.eqb (Name m) "__name__") ms.
Proof.
  induction ms as [|x ms IH]; intros b b'; simpl.
  - rewrite orb_false_r. split.
    + intros [= ->]. split; [|done]. by intros m ?%elem_of_nil.
    + by intros [_ ->].
  - destruct (String.eqb (Name x) "__name__") eqn:En.
    + destruct (String.eqb (Value x) Core.DEFAULT_METRIC_SELECTOR) eqn:Ed.
      * rewrite IH, orb_true_r. simpl. apply String.eqb_eq in Ed. split.
        -- intros [Hall ->]. split; [|done]. intros m [->|Hin]%elem_of_cons Hm.
           ++ by left.
           ++ by apply Hall.
        -- intros [Hall ->]. split; [|done]. intros m Hin. apply Hall, elem_of_cons.
           by right.
      * destruct (Nat.ltb_spec (String.length (TrimSpace (Value x))) 7) as [Hlt|Hge].
        -- split; [done|]. intros [Hall _]. exfalso.
           apply String.eqb_neq in Ed. apply String.eqb_eq in En.
           destruct (Hall x) as [?|?]; [apply elem_of_cons; by left|done|done|lia].
        -- rewrite IH, orb_true_r. simpl. split.
           ++ intros [Hall ->]. split; [|done]. intros m [->|Hin]%elem_of_cons Hm.
              ** by right.
              ** by apply Hall.
           ++ intros [Hall ->]. split; [|done]. intros m Hin. apply Hall, elem_of_cons.
              by right.
    + rewrite IH. apply String.eqb_neq in En. split.
      * intros [Hall ->]. split; [|done]. intros m [->|Hin]%elem_of_cons Hm.
        -- done.
        -- by apply Hall.
      * intros [Hall ->]. split; [|done]. intros m Hin. apply Hall, elem_of_cons.
        by right.
Qed.

Lemma existsb_hasName (ms : list Matcher) :
  existsb (λ m, String.eqb (Name m) "__name__") ms = true ↔ hasName ms.
Proof.
  rewrite existsb_exists. unfold hasName. split.
  - intros (m & Hin & Hn). exists m. split; [by apply list_elem_of_In|].
    by apply String.eqb_eq.
  - intros (m & Hin & Hn). exists m. split; [by apply list_elem_of_In|].
    by apply String.eqb_eq.
Qed.

Lemma Core_validateLoop_status (ms : list string) (code : Z) (msg : string) :
  Core.validateLoop ms = Some (code, msg) → code = StatusBadRequest.
Proof.
  induction ms as [|x ms IH]; simpl; [done|].
  destruct (ParseMetricSelector x) as [objs [err|]]; [by intros [= <- _]|].
  destruct (Core.nameMatcherLoop objs false) as [e|[|]]; simpl;
    [by intros [= <- _]|done|by intros [= <- _]].
Qed.

Lemma Core_validateLoop_None (ms : list string) :
  Core.validateLoop ms = None ↔ Forall validExpression ms.
Proof.
  induction ms as [|x ms IH]; simpl; [by split; [constructor|]|].
  rewrite Forall_cons. unfold validExpression at 1.
  destruct (ParseMetricSelector x) as [objs [err|]]; simpl.
  { split; [done|]. by intros [[? _] _]. }
  destruct (Core.nameMatcherLoop objs false) as [e|has] eqn:El.
  - split; [done|]. intros [(_ & _ & Hall) _]. exfalso.
    assert (Hr : Core.nameMatcherLoop objs false
                 = inr (false || existsb (λ m, String.eqb (Name m) "__name__") objs))
      by (by apply Core_nameMatcherLoop_inr).
    congruence.
  - apply Core_nameMatcherLoop_inr in El as [Hall ->]. simpl.
    destruct (existsb _ objs) eqn:Ex; simpl.
    + rewrite IH. apply existsb_hasName in Ex.
      split; [by intros ?|by intros [_ ?]].
    + split; [done|]. intros [(_ & Hhas & _) _]. apply existsb_hasName in Hhas.
      congruence.
Qed.

(** The validation of [FindClassnames] accepts a request exactly when each
    of its expressions parses, has a matcher on [__name__], and has no
    [__name__] value that is shorter than 7 bytes once trimmed, the default
    pattern excepted; every rejection carries status 400. *)
Theorem Core_validateLoop_accepts (ms : list string) :
  (Core.validateLoop ms = None ↔ Forall validExpression ms)
  ∧ (∀ code msg, Core.validateLoop ms = Some (code, msg) → code = StatusBadRequest).
Proof.
  split; [apply Core_validateLoop_None|].
  intros code msg. apply Core_validateLoop_status.
Qed.

Lemma Core_validateLoop_missing_name (pre : list string) (e : string) (post : list string) :
  Forall validExpression pre →
  (ParseMetricSelector e).2 = None → ¬ hasName (ParseMetricSelector e).1 →
  Core.validateLoop (pre ++ e :: post)
  = Some (StatusBadRequest, "query must include a matcher for __name__").
Proof.
  intros Hpre Hp Hno. induction pre as [|x pre IH]; simpl.
  - destruct (ParseMetricSelector e) as [objs err]. simpl in *. subst err.
    assert (Hr : Core.nameMatcherLoop objs false
                 = inr (false || existsb (λ m, String.eqb (Name m) "__name__") objs)).
    { apply Core_nameMatcherLoop_inr. split; [|done].
      intros m Hin Hn. exfalso. apply Hno. by exists m. }
    rewrite Hr. simpl. destruct (existsb _ objs) eqn:Ex; [|done].
    by apply existsb_hasName in Ex.
  - apply Forall_cons in Hpre as [(Hx & Hhas & Hall) Hpre].
    destruct (ParseMetricSelector x) as [objs err]. simpl in *. subst err.
    assert (Hr : Core.nameMatcherLoop objs false
                 = inr (false || existsb (λ m, String.eqb (Name m) "__name__") objs))
      by (by apply Core_nameMatcherLoop_inr).
    rewrite Hr. apply existsb_hasName in Hhas. rewrite Hhas. simpl. by apply IH.
Qed.

(** An expression that parses but has no matcher on [__name__] makes
    [FindClassnames] answer 400 with "query must include a matcher for
    __name__", without a query, when the expressions before it are valid. *)
Theorem Core_FindClassnames_missing_name
    (token : string) (pre : list string) (e : string) (post : list string)
    (startTime : Time) (uriLabel : string) (calls : list (Call Core.FindParameters)) :
  Forall validExpression pre →
  (ParseMetricSelector e).2 = None → ¬ hasName (ParseMetricSelector e).1 →
  Core.FindClassnames token (pre ++ e :: post) startTime uriLabel calls
  = (([], StatusBadRequest, Some "query must include a matcher for __name__"), calls).
Proof.
  intros Hpre Hp Hno. unfold Core.FindClassnames, Core.withDefaultSelector.
  replace (Nat.eqb (length (pre ++ e :: post)) 0) with false by (by destruct pre).
  by rewrite Core_validateLoop_missing_name.
Qed.

(** When the backend fails on the second of two valid expressions,
    [FindClassnames] returns status 500 together with the series found for
    the first one. *)
Theorem Core_FindClassnames_partial
    (token e1 e2 : string) (startTime : Time) (uriLabel : string)
    (calls : list (Call Core.FindParameters)) (g1 : list GeoTimeSeries) (err : string) :
  validExpression e1 → validExpression e2 →
  let c1 := mkCall token (Core.selectorOf uriLabel e1) (Core.mkFindParameters 0) in
  let c2 := mkCall token (Core.selectorOf uriLabel e2) (Core.mkFindParameters 0) in
  FindGTS calls c1 = FindOK g1 →
  FindGTS (calls ++ [c1]) c2 = FindErr err →
  Core.FindClassnames token [e1; e2] startTime uriLabel calls
  = ((g1, StatusInternalServerError,
      Some "internal server error while searching for series"),
     calls ++ [c1; c2]).
Proof.
  intros H1 H2 c1 c2 Hg1 Hg2. subst c1 c2.
  unfold Core.FindClassnames, Core.withDefaultSelector.
  change (Nat.eqb (length [e1; e2]) 0) with false. cbv iota.
  assert (Hv : Core.validateLoop [e1; e2] = None).
  { apply Core_validateLoop_None. by repeat apply Forall_cons_2. }
  rewrite Hv. simpl. unfold mbind, M_bind, queryGTS.
  rewrite Hg1. simpl. rewrite Hg2. by rewrite <- app_assoc.
Qed.

End Validation.

(** ** The label of the URI, the class names, the window of the clamp *)



Section UriLabel.
Context {collab : Collaborators}.


End UriLabel.

Lemma containsString_elem (slice : list string) (str : string) :
  CoreHandlers.containsString slice str = true ↔ str ∈ slice.
Proof.
  induction slice as [|x slice IH]; simpl; [by rewrite elem_of_nil|].
  rewrite elem_of_cons. destruct (String.eqb x str) eqn:E.
  - apply String.eqb_eq in E. split; [by left|done].
  - apply String.eqb_neq in E. rewrite IH. split; [by right|].
    intros [?|?]; [congruence|done].
Qed.

Lemma collectClasses_from (series : list GeoTimeSeries) :
  ∀ data : list string,
    NoDup data →
    NoDup (CoreHandlers.collectClasses series data)
    ∧ ∀ x, x ∈ CoreHandlers.collectClasses series data
           ↔ x ∈ data ∨ ∃ s, s ∈ series ∧ Class_ s = x.
Proof.
  unfold CoreHandlers.collectClasses.
  induction series as [|s series IH]; intros data Hnd; simpl.
  - split; [done|]. intros x. split; [by left|].
    intros [?|(s & Hin & _)]; [done|]. by apply elem_of_nil in Hin.
  - destruct (CoreHandlers.containsString data (Class_ s)) eqn:Ec; simpl.
    + apply containsString_elem in Ec.
      destruct (IH data Hnd) as [Hn Hx]. split; [done|].
      intros x. rewrite Hx. split.
      * intros [?|(s' & Hin & Hc)]; [by left|].
        right. exists s'. split; [apply elem_of_cons; by right|done].
      * intros [?|(s' & Hin & Hc)]; [by left|].
        apply elem_of_cons in Hin as [->|Hin]; [left; by subst|].
        right. by exists s'.
    + assert (Hnot : Class_ s ∉ data).
      { intros Hin. apply containsString_elem in Hin. congruence. }
      assert (Hnd' : NoDup (data ++ [Class_ s])).
      { apply NoDup_app. split; [done|]. split; [|apply NoDup_singleton].
        by intros y Hy ->%list_elem_of_singleton. }
      destruct (IH _ Hnd') as [Hn Hx]. split; [done|].
      intros x. rewrite Hx, elem_of_app, list_elem_of_singleton. split.
      * intros [[?| ->]|(s' & Hin & Hc)].
        -- by left.
        -- right. exists s. split; [apply elem_of_cons; by left|done].
        -- right. exists s'. split; [apply elem_of_cons; by right|done].
      * intros [?|(s' & Hin & Hc)]; [by left; left|].
        apply elem_of_cons in Hin as [->|Hin]; [left; right; by subst|].
        right. by exists s'.
Qed.

(** The loop of [FindClassnamesHandler] over the series keeps each class
    name once: the data it builds has no duplicates and holds exactly the
    class names of the series. *)
Theorem collectClasses_spec (series : list GeoTimeSeries) :
  NoDup (CoreHandlers.collectClasses series [])
  ∧ ∀ x, x ∈ CoreHandlers.collectClasses series []
         ↔ ∃ s, s ∈ series ∧ Class_ s = x.
Proof.
  destruct (collectClasses_from series [] (NoDup_nil_2)) as [Hn Hx].
  split; [done|]. intros x. rewrite Hx, elem_of_nil. tauto.
Qed.

Section Window.
Context {golib : GoLib}.

(** With [lo] the first clock reading minus the maximum lookback and [hi]
    the second reading minus the minimum lookback: when [lo ≤ hi] the
    clamped time lies between them and the clamp is monotone; when
    [hi < lo] (bounds the wrong way round) no request is kept, each is
    moved to [lo] or to [hi]. *)
Theorem applyTimeRangeLimits_window (w : Core.World) :
  let d := Core.configuredDurations w in
  let lo := Core.clock w (Core.ticks w) + Duration_neg d.2 in
  let hi := Core.clock w (S (Core.ticks w)) + Duration_neg d.1 in
  (lo ≤ hi →
   (∀ t, lo ≤ (Core.applyTimeRangeLimits t w).1 ≤ hi)
   ∧ (∀ t1 t2, t1 ≤ t2 →
        (Core.applyTimeRangeLimits t1 w).1 ≤ (Core.applyTimeRangeLimits t2 w).1)
   ∧ (∀ t, (Core.applyTimeRangeLimits (Core.applyTimeRangeLimits t w).1 w).1
           = (Core.applyTimeRangeLimits t w).1))
  ∧ (hi < lo →
     ∀ t, (Core.applyTimeRangeLimits t w).1 = if t <? lo then lo else hi).
Proof.
  intros d lo hi.
  assert (Hc : ∀ t, (Core.applyTimeRangeLimits t w).1
             = if t <? lo then lo else if hi <? t then hi else t)
    by (intros t; apply applyTimeRangeLimits_cases).
  split.
  - intros Hle. split; [|split].
    + intros t. rewrite Hc.
      destruct (Z.ltb_spec t lo); [lia|]. destruct (Z.ltb_spec hi t); lia.
    + intros t1 t2 H12. rewrite !Hc.
      destruct (Z.ltb_spec t1 lo), (Z.ltb_spec t2 lo); try lia;
        destruct (Z.ltb_spec hi t2); try lia;
        destruct (Z.ltb_spec hi t1); lia.
    + intros t. rewrite !Hc.
      destruct (Z.ltb_spec t lo).
      * destruct (Z.ltb_spec lo lo); [lia|]. destruct (Z.ltb_spec hi lo); [lia|done].
      * destruct (Z.ltb_spec hi t).
        -- destruct (Z.ltb_spec hi lo); [lia|]. destruct (Z.ltb_spec hi hi); [lia|done].
        -- destruct (Z.ltb_spec t lo); [lia|]. destruct (Z.ltb_spec hi t); [lia|done].
  - intros Hlt t. rewrite Hc.
    destruct (Z.ltb_spec t lo); [done|]. destruct (Z.ltb_spec hi t); [done|lia].
Qed.

End Window.

(** ** The handlers around FindClassnames *)

Section CoreHandlerFacts.
Context {collab : Collaborators} {golib : GoLib}.
Context {warpP : Warp10 Core.FindParameters}.

Lemma startTimeOf_readable (start : string) (w : Core.World) :
  start = "" ∨ (ParseInt start).2 = None →
  ∃ t w', CoreHandlers.startTimeOf start w = inr (t, w').
Proof.
  intros Hs. unfold CoreHandlers.startTimeOf.
  destruct (String.eqb start "") eqn:E; simpl; [by eexists _, _|].
  apply String.eqb_neq in E. destruct Hs as [?|Hp]; [done|].
  destruct (ParseInt start) as [sec err]. simpl in Hp. subst err.
  destruct (Core.applyTimeRangeLimits (time_Unix sec) w) as [t w']. by eexists _, _.
Qed.

(** The [start] parameter does not reach the backend: whatever readable
    value it has, and whatever the clock and the configuration are,
    [FindClassnamesHandler] gives the same answer and sends the same
    queries. An unreadable value is answered with status 400 before the
    expressions are looked at, without a query. *)
Theorem FindClassnamesHandler_start_unused
    (r : Handlers.Request) (start1 start2 : string) (w1 w2 : Core.World)
    (calls : list (Call Core.FindParameters)) :
  start1 = "" ∨ (ParseInt start1).2 = None →
  start2 = "" ∨ (ParseInt start2).2 = None →
  (CoreHandlers.FindClassnamesHandler (withQueryStart r start1) w1 calls).1.1
  = (CoreHandlers.FindClassnamesHandler (withQueryStart r start2) w2 calls).1.1
  ∧ (CoreHandlers.FindClassnamesHandler (withQueryStart r start1) w1 calls).2
    = (CoreHandlers.FindClassnamesHandler (withQueryStart r start2) w2 calls).2
  ∧ (∀ bad e, bad ≠ "" → (ParseInt bad).2 = Some e → Handlers.token r ≠ "" →
       CoreHandlers.FindClassnamesHandler (withQueryStart r bad) w1 calls
       = (Handlers.JSONError StatusBadRequest "failed to parse start time", w1, calls)).
Proof.
  intros H1 H2. unfold CoreHandlers.FindClassnamesHandler, withQueryStart. simpl.
  split; [|split].
  - destruct (Nat.eqb (String.length (Handlers.token r)) 0); [done|].
    destruct (startTimeOf_readable start1 w1 H1) as (t1 & w1' & ->).
    destruct (startTimeOf_readable start2 w2 H2) as (t2 & w2' & ->).
    unfold Core.FindClassnames.
    destruct (Core.withDefaultSelector _ _) as [ms params].
    destruct (Core.validateLoop ms) as [[code err]|]; [done|].
    destruct (Core.queryLoop _ _ _ _ _ _) as [[[series status] [err|]] calls']; done.
  - destruct (Nat.eqb (String.length (Handlers.token r)) 0); [done|].
    destruct (startTimeOf_readable start1 w1 H1) as (t1 & w1' & ->).
    destruct (startTimeOf_readable start2 w2 H2) as (t2 & w2' & ->).
    unfold Core.FindClassnames.
    destruct (Core.withDefaultSelector _ _) as [ms params].
    destruct (Core.validateLoop ms) as [[code err]|]; [done|].
    destruct (Core.queryLoop _ _ _ _ _ _) as [[[series status] [err|]] calls']; done.
  - intros bad e Hbad Hp Htok. rewrite (length_nonzero _ Htok).
    unfold CoreHandlers.startTimeOf. apply String.eqb_neq in Hbad. rewrite Hbad. simpl.
    destruct (ParseInt bad) as [sec err]. simpl in Hp. by subst err.
Qed.

(** The record of [handleSeriesPost] for one series: its labels, [.app]
    included, and the class name under [__name__] unless a label has that
    name; attributes are left out. *)
Lemma seriesLabels_lookup (gts : GeoTimeSeries) (k : string) :
  CoreHandlers.seriesLabels gts !! k
  = match Labels gts !! k with
    | Some v => Some v
    | None => if String.eqb k "__name__" then Some (Class_ gts) else None
    end.
Proof.
  unfold CoreHandlers.seriesLabels. rewrite rangeInto_lookup.
  destruct (Labels gts !! k); [done|].
  destruct (String.eqb k "__name__") eqn:En.
  - apply String.eqb_eq in En as ->. by rewrite lookup_insert_eq.
  - apply String.eqb_neq in En. by rewrite lookup_insert_ne, lookup_empty.
Qed.

Lemma Core_queryLoop_ok
    (token uriLabel : string) (params : Core.FindParameters) (ms : list string) :
  ∀ (resp : list GeoTimeSeries) (calls : list (Call Core.FindParameters))
    (series : list GeoTimeSeries) (st : Z) (calls' : list (Call Core.FindParameters)),
    Core.queryLoop token uriLabel params ms resp calls = ((series, st, None), calls') →
    st = StatusOK
    ∧ calls' = calls ++ map (classnamesQuery token uriLabel params) ms
    ∧ ∃ replies,
        repliesTo calls (map (classnamesQuery token uriLabel params) ms) replies
        ∧ series = resp ++ concat replies.
Proof.
  induction ms as [|e ms IH]; intros resp calls series st calls'; simpl.
  - intros [= <- <- <-]. split; [done|]. split; [by rewrite app_nil_r|].
    exists []. split; [|by rewrite app_nil_r]. split; [done|].
    intros i q reply Hq. done.
  - unfold mbind, M_bind, queryGTS.
    fold (classnamesQuery token uriLabel params e).
    destruct (FindGTS calls _) as [gts|err] eqn:Eg; [|done].
    intros Hloop. apply IH in Hloop as (-> & -> & replies & [Hlen Hidx] & ->).
    split; [done|]. split; [by rewrite <- app_assoc|].
    exists (gts :: replies). split; [|by rewrite <- app_assoc].
    split; [simpl; by rewrite Hlen|].
    intros [|i] q reply; simpl.
    + intros [= <-] [= <-]. by rewrite app_nil_r.
    + intros Hq Hr. rewrite <- (Hidx i q reply Hq Hr). f_equal.
      by rewrite <- app_assoc.
Qed.

(** A series request by POST goes through [FindClassnames]: it succeeds
    only with a token and with expressions that all pass its validation;
    it has then sent the forced-regex query of each expression, in order
    and with [GCount = 0], and it returns one record for each series of
    the replies, in order. The record of a series holds its labels ([.app]
    included) and the class name under [__name__] unless a label has that
    name; attributes are left out. A request without expressions is
    answered 400 before the token is looked at. *)
Theorem handleSeriesPost_success
    (r : CoreHandlers.PostRequest) (w : Core.World)
    (calls : list (Call Core.FindParameters))
    (status : string) (data : list (gmap string string)) :
  (CoreHandlers.handleSeriesPost r w calls).1.1 = CoreHandlers.PostSeries status data →
  let qs := map (classnamesQuery (CoreHandlers.post_token r) "" (Core.mkFindParameters 0))
                (CoreHandlers.post_match r) in
  status = "success"
  ∧ CoreHandlers.post_token r ≠ ""
  ∧ Forall validExpression (CoreHandlers.post_match r)
  ∧ CoreHandlers.post_match r ≠ []
  ∧ (CoreHandlers.handleSeriesPost r w calls).2 = calls ++ qs
  ∧ (∃ replies, repliesTo calls qs replies
                ∧ data = map CoreHandlers.seriesLabels (concat replies))
  ∧ (∀ gts k, CoreHandlers.seriesLabels gts !! k
              = match Labels gts !! k with
                | Some v => Some v
                | None => if String.eqb k "__name__" then Some (Class_ gts) else None
                end)
  ∧ (∀ r' : CoreHandlers.PostRequest,
       CoreHandlers.post_bodyErr r' = None → CoreHandlers.post_formErr r' = None →
       CoreHandlers.post_match r' = [] →
       CoreHandlers.handleSeriesPost r' w calls
       = (CoreHandlers.PostError "no match[] parameter provided" StatusBadRequest,
          w, calls)).
Proof.
  intros Hout qs. subst qs.
  assert (Hlast : ∀ r' : CoreHandlers.PostRequest,
       CoreHandlers.post_bodyErr r' = None → CoreHandlers.post_formErr r' = None →
       CoreHandlers.post_match r' = [] →
       CoreHandlers.handleSeriesPost r' w calls
       = (CoreHandlers.PostError "no match[] parameter provided" StatusBadRequest,
          w, calls)).
  { intros r' Hb Hf Hm. unfold CoreHandlers.handleSeriesPost. by rewrite Hb, Hf, Hm. }
  revert Hout. unfold CoreHandlers.handleSeriesPost.
  destruct (CoreHandlers.post_bodyErr r); [done|].
  destruct (CoreHandlers.post_formErr r); [done|].
  destruct (Nat.eqb (length (CoreHandlers.post_match r)) 0) eqn:Elen; [done|].
  destruct (Nat.eqb (String.length (CoreHandlers.post_token r)) 0) eqn:Etok; [done|].
  destruct (CoreHandlers.startTimeOf _ w) as [e|[t w']]; [done|].
  unfold Core.FindClassnames, Core.withDefaultSelector. rewrite Elen.
  destruct (Core.validateLoop (CoreHandlers.post_match r)) as [[code err]|] eqn:Ev;
    [done|].
  destruct (Core.queryLoop _ _ _ _ _ _) as [[[series st] [err|]] calls'] eqn:Eq;
    [done|].
  simpl. intros [= <- <-].
  apply Core_queryLoop_ok in Eq as (-> & -> & replies & Hrep & ->).
  split; [done|]. split.
  { intros Ht. by rewrite Ht in Etok. }
  split; [by apply Core_validateLoop_None|]. split.
  { intros Hm. by rewrite Hm in Elen. }
  split; [done|]. split; [by exists replies|].
  split; [|done]. intros gts k. apply seriesLabels_lookup.
Qed.

Lemma Core_FindLabels_loop_grows (token : string) (matchers : list string) :
  ∀ (labelSet : gset string) (calls : list (Call Core.FindParameters))
    (s : gset string) calls',
    CoreHandlers.FindLabels_loop token matchers labelSet calls = (inr s, calls') →
    labelSet ⊆ s ∧ (matchers ≠ [] → "__name__" ∈ s).
Proof.
  induction matchers as [|e rest IH]; intros labelSet calls s calls'; simpl.
  - by intros [= <- <-].
  - destruct (ParseMetricSelector e) as [objs [err|]]; [done|].
    destruct (processMatchers objs) as [cls lbls].
    unfold mbind, M_bind, queryGTS.
    destruct (FindGTS calls _) as [gts|err]; [|done].
    intros Hs. apply IH in Hs as [Hsub _].
    assert (Hstep : {["__name__"]} ∪ labelSet ⊆ s).
    { intros k Hk. apply Hsub, collectLabelNames_elem. by left. }
    split.
    + intros k Hk. apply Hstep, elem_of_union. by right.
    + intros _. apply Hstep, elem_of_union. left. by apply elem_of_singleton.
Qed.

(** [FindLabels] of this revision answers a request that has expressions
    with twice as many entries as there are label names: as many empty
    strings as names, then the names. [__name__] is among the names, so
    the first entry is always the empty string. *)
Theorem Core_FindLabels_padding
    (r : Handlers.Request) (calls : list (Call Core.FindParameters))
    (code : Z) (resp : prometheusFindLabelsResponse) :
  (CoreHandlers.FindLabels r calls).1 = Handlers.JSONLabels code resp →
  Handlers.form_match r ≠ [] →
  ∃ labelSet : gset string,
    "__name__" ∈ labelSet
    ∧ Data resp = replicate (size labelSet) "" ++ mapKeys labelSet
    ∧ length (Data resp) = (2 * size labelSet)%nat
    ∧ Data resp !! 0%nat = Some "".
Proof.
  unfold CoreHandlers.FindLabels. intros Hout Hm. revert Hout.
  destruct (Nat.eqb (String.length (Handlers.token r)) 0); [done|].
  destruct (Handlers.formErr r); [done|].
  destruct (Nat.eqb (length (Handlers.form_match r)) 0) eqn:Elen.
  { destruct (Handlers.form_match r); done. }
  unfold mbind, M_bind, mret, M_ret.
  destruct (CoreHandlers.FindLabels_loop _ _ _ _) as [[early|s] calls'] eqn:El.
  - simpl. intros ->. exfalso. clear -El.
    revert El. generalize (∅ : gset string). revert calls.
    induction (Handlers.form_match r) as [|e rest IH]; intros calls s0; simpl; [done|].
    destruct (ParseMetricSelector e) as [objs [err|]]; [done|].
    destruct (processMatchers objs) as [cls lbls].
    unfold mbind, M_bind, queryGTS.
    destruct (FindGTS calls _) as [gts|err]; [apply IH|done].
  - simpl. intros [= <- <-]. apply Core_FindLabels_loop_grows in El as [_ Hn].
    specialize (Hn Hm). exists s. simpl.
    assert (Hlen : length (mapKeys s) = size s).
    { by rewrite (mapKeys_perm s). }
    split; [done|]. split; [done|]. split.
    + rewrite length_app, length_replicate, Hlen. lia.
    + assert (Hpos : (0 < size s)%nat).
      { destruct (decide (size s = 0%nat)) as [Hz|]; [|lia].
        apply size_empty_inv in Hz. set_solver. }
      destruct (size s); [lia|done].
Qed.

End CoreHandlerFacts.

(** ** More on the echo handlers *)

Section HandlerFacts.
Context {collab : Collaborators} {warp : Warp10 Time} {golib : GoLib}.




(** When the backend fails, label-value discovery and series discovery
    pass the error text of the backend on to the client, while label-name
    discovery answers with a fixed message; all three answer 500 after the
    one query. *)
Theorem backend_error_disclosure
    (r : Handlers.Request) (e : string) (rest : list string)
    (calls : list (Call Time)) (err : string) :
  Handlers.token r ≠ "" → Handlers.label r ≠ "" → Handlers.formErr r = None →
  Handlers.form_match r = e :: rest →
  (ParseMetricSelector e).2 = None →
  FindGTS calls (seriesQuery (Handlers.token r) e) = FindErr err →
  Handlers.FindLabelsValues r calls
  = (Handlers.RespondWithError err StatusInternalServerError,
     calls ++ [seriesQuery (Handlers.token r) e])
  ∧ Series.FindSeries r calls
    = (Series.RespondWithError err StatusInternalServerError,
       calls ++ [seriesQuery (Handlers.token r) e])
  ∧ Handlers.FindLabels r calls
    = (Handlers.JSONError StatusInternalServerError
         "internal server error while searching for series",
       calls ++ [seriesQuery (Handlers.token r) e]).
Proof.
  intros Htok Hlab Hform Hm Hp Hg.
  unfold Handlers.FindLabelsValues, Series.FindSeries, Handlers.FindLabels.
  rewrite (length_nonzero _ Htok), (length_nonzero _ Hlab), Hform, Hm. simpl.
  unfold seriesQuery, findQueryOf in *.
  destruct (ParseMetricSelector e) as [objs perr]. simpl in *. subst perr.
  destruct (processMatchers objs) as [cls lbls].
  unfold mbind, M_bind, queryGTS. by rewrite Hg.
Qed.

(** Label-value discovery without an expression is not an error: with a
    token and a label, the answer is the empty success result and the
    backend is not queried. *)
Theorem FindLabelsValues_no_matchers
    (r : Handlers.Request) (calls : list (Call Time)) :
  Handlers.token r ≠ "" → Handlers.label r ≠ "" → Handlers.formErr r = None →
  Handlers.form_match r = [] →
  Handlers.FindLabelsValues r calls
  = (Handlers.JSONLabels StatusOK (mkLabelsResponse "success" []), calls).
Proof.
  intros Htok Hlab Hform Hm. unfold Handlers.FindLabelsValues.
  by rewrite (length_nonzero _ Htok), (length_nonzero _ Hlab), Hform, Hm.
Qed.

Lemma Handlers_FindLabels_loop_ok (token : string) (matchers : list string) :
  ∀ (labelSet : gset string) (calls : list (Call Time)) (s : gset string) calls',
    Handlers.FindLabels_loop token matchers labelSet calls = (inr s, calls') →
    calls' = calls ++ map (seriesQuery token) matchers
    ∧ labelSet ⊆ s ∧ (matchers ≠ [] → "__name__" ∈ s).
Proof.
  induction matchers as [|e rest IH]; intros labelSet calls s calls'; simpl.
  - intros [= <- <-]. by rewrite app_nil_r.
  - unfold seriesQuery at 1, findQueryOf.
    destruct (ParseMetricSelector e) as [objs [err|]]; [done|]. simpl.
    destruct (processMatchers objs) as [cls lbls].
    unfold mbind, M_bind, queryGTS.
    destruct (FindGTS calls _) as [gts|err]; [|done].
    intros Hs. apply IH in Hs as (-> & Hsub & _).
    assert (Hstep : {["__name__"]} ∪ labelSet ⊆ s).
    { intros k Hk. apply Hsub, collectLabelNames_elem. by left. }
    split; [by rewrite <- app_assoc|]. split.
    + intros k Hk. apply Hstep, elem_of_union. by right.
    + intros _. apply Hstep, elem_of_union. left. by apply elem_of_singleton.
Qed.

Lemma Handlers_FindLabels_loop_early (token : string) (matchers : list string) :
  ∀ (labelSet : gset string) (calls : list (Call Time)) early calls',
    Handlers.FindLabels_loop token matchers labelSet calls = (inl early, calls') →
    ∃ code msg, early = Handlers.JSONError code msg.
Proof.
  induction matchers as [|e rest IH]; intros labelSet calls early calls'; simpl; [done|].
  destruct (ParseMetricSelector e) as [objs [err|]].
  - intros [= <- <-]. by eexists _, _.
  - destruct (processMatchers objs) as [cls lbls].
    unfold mbind, M_bind, queryGTS.
    destruct (FindGTS calls _) as [gts|err]; [apply IH|].
    intros [= <- <-]. by eexists _, _.
Qed.

(** A successful label-name discovery over one or more expressions has
    queried the backend once for each of them, in order, and returns label
    names without duplicates, [__name__] among them. *)
Theorem Handlers_FindLabels_success
    (r : Handlers.Request) (calls calls' : list (Call Time))
    (code : Z) (resp : prometheusFindLabelsResponse) :
  Handlers.FindLabels r calls = (Handlers.JSONLabels code resp, calls') →
  Handlers.form_match r ≠ [] →
  code = StatusOK ∧ Status resp = "success"
  ∧ NoDup (Data resp) ∧ "__name__" ∈ Data resp
  ∧ calls' = calls ++ map (seriesQuery (Handlers.token r)) (Handlers.form_match r).
Proof.
  unfold Handlers.FindLabels. intros Hout Hm. revert Hout.
  destruct (Nat.eqb (String.length (Handlers.token r)) 0); [done|].
  destruct (Handlers.formErr r); [done|].
  destruct (Nat.eqb (length (Handlers.form_match r)) 0) eqn:Elen.
  { destruct (Handlers.form_match r); done. }
  unfold mbind, M_bind, mret, M_ret.
  destruct (Handlers.FindLabels_loop _ _ _ _) as [[early|s] calls''] eqn:El.
  - apply Handlers_FindLabels_loop_early in El as (c & m & ->). done.
  - intros [= <- <- <-]. apply Handlers_FindLabels_loop_ok in El as (-> & _ & Hn).
    simpl. repeat split; try done.
    + rewrite (mapKeys_perm s). apply NoDup_elements.
    + apply elem_of_mapKeys. by apply Hn.
Qed.

End HandlerFacts.

(** ** The oldest revision *)




(** ** The theorems on concrete requests *)

#[local] Existing Instance Sample.collaborators.
#[local] Existing Instance Sample.warp10.
#[local] Existing Instance Sample.goLib.

Lemma FindLabels_no_matchers_witness :
  Handlers.FindLabels (Handlers.withFormMatch Sample.request []) []
  = (Handlers.JSONLabels StatusOK (mkLabelsResponse "success" []), []).
Proof.
  pose proof (FindLabels_no_matchers
                (Handlers.withFormMatch Sample.request []) [] eq_refl) as [Hc Hr].
  rewrite (surjective_pairing (Handlers.FindLabels _ _)), Hc, Hr; done.
Defined.

Lemma FindLabelsValues_first_only_witness :
  (Handlers.FindLabelsValues Sample.request []).2
  = [mkCall "READ" "cpu_usage{env=prod}" zeroTime].
Proof.
  pose proof (FindLabelsValues_first_only
                Sample.request "{__name__='cpu_usage',env='prod'}" ["{env!='prod'}"] []
                eq_refl) as (_ & _ & Hq).
  rewrite Hq; [reflexivity|discriminate|discriminate|reflexivity|reflexivity].
Defined.


Lemma FindLabelsValues_labels_only_witness :
  ∃ data names,
    (Handlers.FindLabelsValues
       (Handlers.mkRequest "READ" "owner" None ["{__name__='cpu_usage',env='prod'}"] [] "")
       []).1
    = Handlers.WriteLabels (mkLabelsResponse "success" data)
    ∧ (∀ v, v ∈ data ↔ ∃ gts, gts ∈ Sample.series ∧ Labels gts !! "owner" = Some v)
    ∧ (Handlers.FindLabels
         (Handlers.mkRequest "READ" "owner" None ["{__name__='cpu_usage',env='prod'}"] [] "")
         []).1
      = Handlers.JSONLabels StatusOK (mkLabelsResponse "success" names)
    ∧ (∀ gts k, gts ∈ Sample.series → is_Some (Attrs gts !! k) → k ∈ names).
Proof.
  destruct (FindLabelsValues_labels_only
              (Handlers.mkRequest "READ" "owner" None
                 ["{__name__='cpu_usage',env='prod'}"] [] "")
              "{__name__='cpu_usage',env='prod'}" [] [] Sample.series)
    as (data & names & Hv & Hiff & _ & _ & Hl & Hattrs);
    [discriminate|discriminate|reflexivity|reflexivity|reflexivity|reflexivity|].
  exists data, names. split; [exact Hv|]. split; [|split; [exact Hl|exact Hattrs]].
  apply Hiff. discriminate.
Defined.



Lemma applyTimeRangeLimits_reads_world_witness :
  (Core.applyTimeRangeLimits Sample.T0 Sample.world).1
  = (Core.applyTimeRangeLimits Sample.T0
       (Core.mkWorld (Core.viper Sample.world) (Core.clock Sample.world) 5)).1.
Proof.
  refine (proj1 (applyTimeRangeLimits_reads_world Sample.T0 Sample.world
                   (Core.mkWorld (Core.viper Sample.world) (Core.clock Sample.world) 5)
                   _ _ _ _)); reflexivity.
Defined.

(** C8, as the specification has it, fails: with the same requested time the
    result changes when only the clock of the process changes, and when only
    its configuration changes. *)
Lemma applyTimeRangeLimits_not_pure :
  Core.viper Sample.worldLater = Core.viper Sample.world
  ∧ (Core.applyTimeRangeLimits Sample.T0 Sample.world).1
    ≠ (Core.applyTimeRangeLimits Sample.T0 Sample.worldLater).1
  ∧ Core.clock Sample.worldReconfigured = Core.clock Sample.world
  ∧ (Core.applyTimeRangeLimits Sample.T0 Sample.world).1
    ≠ (Core.applyTimeRangeLimits Sample.T0 Sample.worldReconfigured).1.
Proof. repeat split; by vm_compute. Qed.

Lemma FindClassnames_short_name_witness :
  ∃ msg,
    Core.FindClassnames "READ" ["{__name__='abcdefg'}"; "{__name__='abc'}"]
      zeroTime "" []
    = (([], StatusBadRequest, Some msg), []).
Proof.
  refine (proj1 (FindClassnames_short_name (warpT := Sample.warp10 Time)
            "READ" ["{__name__='abcdefg'}"; "{__name__='abc'}"] zeroTime "" []
            "{__name__='abc'}" (mkMatcher MatchEqual "__name__" "abc") _ _ _)).
  - apply elem_of_cons. right. apply elem_of_cons. by left.
  - apply elem_of_cons. by left.
  - split; [reflexivity|]. split; [vm_compute; discriminate|vm_compute; lia].
Defined.

Lemma FindClassnames_default_witness :
  (Core.FindClassnames "READ" [] zeroTime "" []).2
  = [] ++ [mkCall "READ"
             ("~" +:+ buildWarp10Selector Core.DEFAULT_METRIC_SELECTOR (withUriLabel "" ∅))
             (Core.mkFindParameters 100)].
Proof.
  exact (proj1 (proj2 (FindClassnames_default "READ" zeroTime "" [] eq_refl))).
Defined.

(** *** Series discovery on concrete requests *)

Lemma FindSeries_success_witness :
  (Series.FindSeries Sample.request []).2
  = [] ++ map (seriesQuery (Handlers.token Sample.request))
              (Handlers.form_match Sample.request).
Proof.
  refine (proj1 (FindSeries_success Sample.request [] _
                   (map Series.recordOf (Sample.series ++ Sample.series)) _)).
  by vm_compute.
Defined.

Lemma FindSeries_parse_error_witness :
  Series.FindSeries (Sample2.requestOf ["{env!='prod'}"; "up{"; "{__name__='abc'}"]) []
  = (Series.RespondWithError "parse error" Series.StatusUnprocessableEntity,
     [] ++ map (seriesQuery "READ") ["{env!='prod'}"]).
Proof.
  refine (FindSeries_parse_error
            (Sample2.requestOf ["{env!='prod'}"; "up{"; "{__name__='abc'}"])
            ["{env!='prod'}"] "up{" ["{__name__='abc'}"] "parse error" [] _ _ _ _ _).
  - discriminate.
  - reflexivity.
  - by repeat apply Forall_cons_2.
  - reflexivity.
  - intros cs c. by exists Sample.series.
Defined.

(** *** FindClassnames and its handlers on concrete requests *)

Lemma Sample_valid_abcdefg : validExpression "{__name__='abcdefg'}".
Proof.
  split; [reflexivity|]. split.
  - exists (mkMatcher MatchEqual "__name__" "abcdefg").
    split; [apply elem_of_cons; by left|reflexivity].
  - intros m Hin _. apply elem_of_cons in Hin as [->|Hin]; [|by apply elem_of_nil in Hin].
    right. vm_compute. lia.
Qed.

Lemma Core_FindClassnames_missing_name_witness :
  Core.FindClassnames "READ" (["{__name__='abcdefg'}"] ++ "{env!='prod'}" :: [])
    zeroTime "" []
  = (([], StatusBadRequest, Some "query must include a matcher for __name__"), []).
Proof.
  refine (Core_FindClassnames_missing_name "READ" ["{__name__='abcdefg'}"]
            "{env!='prod'}" [] zeroTime "" [] _ _ _).
  - apply Forall_cons_2; [apply Sample_valid_abcdefg|constructor].
  - reflexivity.
  - intros (m & Hin & Hn).
    apply elem_of_cons in Hin as [->|Hin]; [discriminate|by apply elem_of_nil in Hin].
Defined.

Lemma Core_FindClassnames_partial_witness :
  @Core.FindClassnames Sample.collaborators (Sample2.failingAfter 1 _) Sample.goLib
    "READ" ["{__name__='abcdefg'}"; "{__name__='abcdefg'}"] zeroTime "" []
  = ((Sample.series, StatusInternalServerError,
      Some "internal server error while searching for series"),
     [] ++ [mkCall "READ" (Core.selectorOf "" "{__name__='abcdefg'}")
              (Core.mkFindParameters 0);
            mkCall "READ" (Core.selectorOf "" "{__name__='abcdefg'}")
              (Core.mkFindParameters 0)]).
Proof.
  refine (Core_FindClassnames_partial (warpP := Sample2.failingAfter 1 _)
            "READ" "{__name__='abcdefg'}" "{__name__='abcdefg'}" zeroTime "" []
            Sample.series "warp10: timeout" _ _ _ _).
  - apply Sample_valid_abcdefg.
  - apply Sample_valid_abcdefg.
  - reflexivity.
  - reflexivity.
Defined.


Lemma FindClassnamesHandler_start_unused_witness :
  (CoreHandlers.FindClassnamesHandler (withQueryStart Sample.request "") Sample.world []).2
  = (CoreHandlers.FindClassnamesHandler (withQueryStart Sample.request "1700000000")
       Sample.worldLater []).2.
Proof.
  refine (proj1 (proj2 (FindClassnamesHandler_start_unused Sample.request
                          "" "1700000000" Sample.world Sample.worldLater [] _ _))).
  - by left.
  - right. reflexivity.
Defined.

Lemma handleSeriesPost_success_witness :
  (CoreHandlers.handleSeriesPost Sample2.postRequest Sample.world []).2
  = [] ++ map (classnamesQuery (CoreHandlers.post_token Sample2.postRequest) ""
                 (Core.mkFindParameters 0))
              (CoreHandlers.post_match Sample2.postRequest).
Proof.
  refine (proj1 (proj2 (proj2 (proj2 (proj2
            (handleSeriesPost_success Sample2.postRequest Sample.world []
               "success" (map CoreHandlers.seriesLabels Sample.series) _)))))).
  by vm_compute.
Defined.

Lemma Core_FindLabels_padding_witness :
  ∃ labelSet : gset string,
    "__name__" ∈ labelSet
    ∧ Data (mkLabelsResponse "success"
              (replicate 4 "" ++ elements (Handlers.collectLabelNames Sample.series
                                             ({["__name__"]} ∪ ∅))))
      = replicate (size labelSet) "" ++ mapKeys labelSet
    ∧ length (Data (mkLabelsResponse "success"
                      (replicate 4 "" ++ elements (Handlers.collectLabelNames Sample.series
                                                     ({["__name__"]} ∪ ∅)))))
      = (2 * size labelSet)%nat
    ∧ Data (mkLabelsResponse "success"
              (replicate 4 "" ++ elements (Handlers.collectLabelNames Sample.series
                                             ({["__name__"]} ∪ ∅)))) !! 0%nat
      = Some "".
Proof.
  refine (Core_FindLabels_padding
            (Sample2.requestOf ["{__name__='cpu_usage',env='prod'}"]) [] StatusOK _ _ _).
  - by vm_compute.
  - discriminate.
Defined.

(** *** The echo handlers on concrete requests *)

Lemma backend_error_disclosure_witness :
  @Handlers.FindLabelsValues Sample.collaborators (Sample2.failingAfter 0 _) Sample.request []
  = (Handlers.RespondWithError "warp10: timeout" StatusInternalServerError,
     [] ++ [seriesQuery (Handlers.token Sample.request)
              "{__name__='cpu_usage',env='prod'}"]).
Proof.
  refine (proj1 (backend_error_disclosure (warp := Sample2.failingAfter 0 _)
                   (golib := Sample.goLib)
                   Sample.request "{__name__='cpu_usage',env='prod'}" ["{env!='prod'}"]
                   [] "warp10: timeout" _ _ _ _ _ _));
    first [discriminate | reflexivity].
Defined.

Lemma FindLabelsValues_no_matchers_witness :
  Handlers.FindLabelsValues (Handlers.withFormMatch Sample.request []) []
  = (Handlers.JSONLabels StatusOK (mkLabelsResponse "success" []), []).
Proof.
  refine (FindLabelsValues_no_matchers (Handlers.withFormMatch Sample.request []) []
            _ _ _ _); first [discriminate | reflexivity].
Defined.

Lemma Handlers_FindLabels_success_witness :
  (Handlers.FindLabels Sample.request []).2
  = [] ++ map (seriesQuery (Handlers.token Sample.request))
              (Handlers.form_match Sample.request).
Proof.
  refine (proj2 (proj2 (proj2 (proj2
            (Handlers_FindLabels_success Sample.request [] _ StatusOK
               (mkLabelsResponse "success"
                  (elements (Handlers.collectLabelNames Sample.series
                               ({["__name__"]} ∪
                                Handlers.collectLabelNames Sample.series
                                  ({["__name__"]} ∪ ∅))))) _ _))))).
  - by vm_compute.
  - discriminate.
Defined.


(** C4, as the specification has it, fails: [len] counts bytes, so a
    [__name__] value of four two-byte characters (eight bytes) is not too
    short for [FindClassnames], which queries the backend and answers 200. *)
Lemma FindClassnames_short_name_in_characters :
  ParseMetricSelector (Collaborators := Sample3.collaborators) "{__name__=~'éééé'}"
  = ([mkMatcher MatchRegexp "__name__" "éééé"], None)
  ∧ (runeCount (TrimSpace "éééé") < 7)%nat
  ∧ runeCount (TrimSpace "éééé") = 4%nat
  ∧ String.length (TrimSpace "éééé") = 8%nat
  ∧ "éééé" ≠ Core.DEFAULT_METRIC_SELECTOR
  ∧ @Core.FindClassnames Sample3.collaborators (Sample.warp10 _) Sample.goLib
      "READ" ["{__name__=~'éééé'}"] zeroTime "" []
    = ((Sample.series, StatusOK, None),
       [mkCall "READ" "~éééé{}" (Core.mkFindParameters 0)]).
Proof.
  split; [reflexivity|]. split; [vm_compute; lia|].
  split; [by vm_compute|]. split; [by vm_compute|].
  split; [discriminate|]. by vm_compute.
Qed.
